(** * LeoNetEmulator: the trace-driven link scheduler of the bent-pipe topology

    A shallow embedding of [Topology/bent-pipe (1).py] (the latency trace
    store, the nearest-sample selector, the link configurator, the scheduler
    loop and the periodic trigger) and of the reading loop of
    [Latency/convert_ping_text_to_csv.py], with the properties of the
    specification stated over it.

    Python's [float] is IEEE 754 binary64, and so is Rocq's primitive
    [float]: the arithmetic of the source ([-], [/], [abs], [<]) is
    embedded with the primitive operations, correctly rounded as in
    CPython. *)

From Stdlib Require Import ZArith List String Ascii Bool Lia.
From Stdlib Require Import Floats Uint63.
From stdpp Require Import gmap strings pretty.
Import ListNotations.

Set Warnings "-inexact-float".
Local Open Scope Z_scope.

(** ** Exceptions and results *)

(** The exceptions the embedded code can raise. *)
Inductive exn : Set :=
| ValueError      (* float("x"), min([]), int(nan), tuple unpacking *)
| IndexError      (* row[i] past the end of the row *)
| OverflowError   (* int(inf) *)
| KeyError        (* net.get of an unknown node *)
| StopIteration.  (* next(reader) on an exhausted reader *)

(** A computation either returns a value or raises. *)
Inductive result (A : Type) : Type :=
| Ok (a : A)
| Raise (e : exn).
Arguments Ok {A} a.
Arguments Raise {A} e.

Definition bind {A B} (r : result A) (k : A -> result B) : result B :=
  match r with
  | Ok a => k a
  | Raise e => Raise e
  end.

Notation "'let*' x ':=' r 'in' k" := (bind r (fun x => k))
  (at level 10, x name, r at level 100, k at level 200).

Definition returns {A} (r : result A) : bool :=
  match r with Ok _ => true | Raise _ => false end.

(** ** Python floats *)

Module PyFloat.

(** [x > 0] and the other comparisons of the source are IEEE comparisons:
    false as soon as an operand is NaN. *)
Definition lt (x y : float) : bool := PrimFloat.ltb x y.
Definition le (x y : float) : bool := PrimFloat.leb x y.
Definition gt (x y : float) : bool := PrimFloat.ltb y x.

(** [==] on floats, as dictionary lookup uses it: [0.0 == -0.0], and NaN
    is equal to nothing, itself included. *)
Definition eq (x y : float) : bool := PrimFloat.eqb x y.

(** [x is y or x == y], the test CPython's dictionaries apply to a key.
    The only key objects the program looks up are keys taken from the
    dictionary itself; two NaN keys are told apart by [==] but the
    object found by identity is the first one, which is what a left to
    right search with this test returns (see [py_min_nan_head]). *)
Definition same_key (x y : float) : bool :=
  eq x y || (PrimFloat.is_nan x && PrimFloat.is_nan y).

(** [int(x)]: truncation toward zero of a finite float; [ValueError] on
    NaN and [OverflowError] on an infinity. *)
Definition int (x : float) : result Z :=
  match Prim2SF x with
  | S754_zero _ => Ok 0
  | S754_nan => Raise ValueError
  | S754_infinity _ => Raise OverflowError
  | S754_finite s m e =>
      let magnitude :=
        match e with
        | Z0 => Zpos m
        | Zpos p => Z.shiftl (Zpos m) (Zpos p)
        | Zneg p => Z.shiftr (Zpos m) (Zpos p)
        end in
      Ok (if s then - magnitude else magnitude)
  end.

(** A float that is a number: neither NaN nor an infinity. *)
Definition is_number (x : float) : bool :=
  match Prim2SF x with
  | S754_nan | S754_infinity _ => false
  | S754_zero _ | S754_finite _ _ _ => true
  end.

End PyFloat.

(** ** Trace store: [NetworkConfigThread.load_latency_trace] *)

(** A [dict] with float keys, in insertion order (the order [keys()] and
    [min] iterate in). *)
Definition trace : Type := list (float * float).

Definition keys (d : trace) : list float := map fst d.

(** [d[k] = v]: an existing key keeps its place (and its key object) and
    takes the new value; a new key goes to the end. *)
Fixpoint dict_setitem (d : trace) (k v : float) : trace :=
  match d with
  | [] => [(k, v)]
  | (k', v') :: d' =>
      if PyFloat.eq k' k then (k', v) :: d'
      else (k', v') :: dict_setitem d' k v
  end.

(** [d[k]] on a [defaultdict(float)]: the stored value, [float()] = 0.0
    for a key that is absent. *)
Fixpoint dict_getitem (d : trace) (k : float) : float :=
  match d with
  | [] => 0%float
  | (k', v') :: d' =>
      if PyFloat.same_key k' k then v' else dict_getitem d' k
  end.

(** [row[i]] on a row of the csv reader. *)
Definition row_item (row : list string) (i : nat) : result string :=
  match nth_error row i with
  | Some s => Ok s
  | None => Raise IndexError
  end.

Section TraceStore.

(** [float(s)] on a string: the parsed number, or [None] where Python
    raises [ValueError]. *)
Variable py_float : string -> option float.

Definition float_of_str (s : string) : result float :=
  match py_float s with
  | Some x => Ok x
  | None => Raise ValueError
  end.

(** The body of [for row in reader]: [data[float(row[1])] = float(row[2])].
    Python evaluates the right-hand side first. *)
Definition load_row (data : trace) (row : list string) : result trace :=
  let* s2 := row_item row 2 in
  let* v := float_of_str s2 in
  let* s1 := row_item row 1 in
  let* k := float_of_str s1 in
  Ok (dict_setitem data k v).

Fixpoint load_rows (data : trace) (rows : list (list string)) : result trace :=
  match rows with
  | [] => Ok data
  | row :: rows' =>
      let* data' := load_row data row in
      load_rows data' rows'
  end.

(** [load_latency_trace], on the rows the csv reader yields for the
    file: [next(reader)] drops the first one, the loop stores the rest. *)
Definition load_latency_trace (rows : list (list string)) : result trace :=
  match rows with
  | [] => Raise StopIteration
  | _header :: rows' => load_rows [] rows'
  end.

End TraceStore.

(** ** Nearest-sample selector: [NetworkConfigThread.get_closest_latency] *)

(** The fields of a [NetworkConfigThread] ([self.net] is the shared
    emulation state and is passed separately). *)
Record NetworkConfigThread : Type := {
  host_name : string;
  dev : string;
  latency : trace;
  start_time : float
}.

(** [min(xs, key=f)]: the first element whose key no later one is
    strictly below; [ValueError] on an empty sequence. *)
Definition py_min {A} (f : A -> float) (xs : list A) : result A :=
  match xs with
  | [] => Raise ValueError
  | x :: xs' =>
      Ok (fold_left (fun best y => if PyFloat.lt (f y) (f best) then y else best) xs' x)
  end.

(** The distance the selector minimises. *)
Definition distance (now_relative t : float) : float :=
  PrimFloat.abs (t - now_relative)%float.

(** Lines 71-72, for an elapsed time [now_relative]. *)
Definition closest_latency (latency : trace) (now_relative : float) : result Z :=
  let* closest := py_min (distance now_relative) (keys latency) in
  PyFloat.int (dict_getitem latency closest / 2)%float.

(** [get_closest_latency], reading [now] from the clock. *)
Definition get_closest_latency (self : NetworkConfigThread) (now : float) : result Z :=
  let now_relative := (now - start_time self)%float in
  closest_latency (latency self) now_relative.

(** The representation invariant of a dictionary: no two entries have
    [==] keys. *)
Fixpoint dict_ok (d : trace) : bool :=
  match d with
  | [] => true
  | (k, _) :: d' => forallb (fun k' => negb (PyFloat.eq k k')) (keys d') && dict_ok d'
  end.

(** [k] is the element [min] selects in [pre ++ k :: post]: every earlier
    element is strictly farther or has an unordered (NaN) key, no later
    element is strictly below, and [k] is either the head or has beaten
    an earlier element. *)
Definition first_minimum {A} (f : A -> float) (pre : list A) (k : A) (post : list A) : Prop :=
  (forall x, In x pre -> PyFloat.le (f x) (f k) = false) /\
  (forall x, In x post -> PyFloat.lt (f x) (f k) = false) /\
  (pre = [] \/ exists b, PyFloat.lt (f k) (f b) = true).

(** [__init__] followed by the first line of [run]: the trace is loaded
    from the rows of the file and [start_time] is the clock reading [t0]. *)
Definition new_thread (py_float : string -> option float) (host device : string)
    (rows : list (list string)) (t0 : float) : result NetworkConfigThread :=
  let* data := load_latency_trace py_float rows in
  Ok {| host_name := host; dev := device; latency := data; start_time := t0 |}.

(** ** Emulation environment *)

(** An interface of a node: [str(intf)] and [intf.link], the link given by
    the names of its two ends [link.intf1] and [link.intf2]. *)
Record Intf : Type := {
  intf_name : string;
  intf_link : option (string * string)
}.

(** The traffic shaping requested for an interface: the arguments of the
    latest [config] call on it. *)
Record tc_config : Type := {
  tc_bw : option Z;
  tc_delay : option string;
  tc_loss : option Z
}.

(** The emulated network: [net.get(name).intfList()] per node name, and
    the shaping of every interface, by interface name. *)
Record Mininet : Type := {
  nameToNode : gmap string (list Intf);
  shaping : gmap string tc_config
}.

(** [intf.config(delay=d, loss=l)] of Mininet's [TCIntf], whose parameters
    all default to [None]: the shaping of the interface is rebuilt from
    the arguments of the call, so a parameter that is not passed (here
    [bw]) is not applied. *)
Definition intf_config (name : string) (delay : string) (loss : Z) (net : Mininet) : Mininet :=
  {| nameToNode := nameToNode net;
     shaping := <[name := {| tc_bw := None; tc_delay := Some delay; tc_loss := Some loss |}]>
                  (shaping net) |}.

(** The f-string [f"{delay}ms"]. *)
Definition delay_ms (delay : Z) : string := pretty delay +:+ "ms".

(** ** Link configurator: [configureStaticNetworkConditions] *)

(** The body of [for intf in host.intfList()]. *)
Definition configure_intf (self : NetworkConfigThread) (delay loss : Z)
    (net : Mininet) (intf : Intf) : Mininet :=
  match intf_link intf with
  | Some (a, b) =>
      if String.eqb (intf_name intf) (dev self)
      then intf_config b (delay_ms delay) loss (intf_config a (delay_ms delay) loss net)
      else net
  | None => net
  end.

(** [configureStaticNetworkConditions(delay, bw, loss)]. The body of the
    source never reads [bw]. *)
Definition configureStaticNetworkConditions (self : NetworkConfigThread)
    (delay bw loss : Z) (net : Mininet) : result Mininet :=
  match nameToNode net !! host_name self with
  | None => Raise KeyError
  | Some intfList => Ok (fold_left (configure_intf self delay loss) intfList net)
  end.

(** The interface named [device] resolves on a node: one of its
    interfaces has a link and that name. *)
Definition resolves (device : string) (intfList : list Intf) : bool :=
  existsb (fun intf => match intf_link intf with
                       | Some _ => String.eqb (intf_name intf) device
                       | None => false
                       end) intfList.

(** ** Scheduler loop: [configureNetworkConditions] *)

(** Where the loop thread stands, by the line it executes next. *)
Inductive loc : Type :=
| AtBaseline              (* lines 75-77 *)
| AtWhile                 (* line 78, the test of the loop *)
| AtWait                  (* line 79, update_event.wait() *)
| AtSelect                (* line 80 *)
| AtApply (delay : Z)     (* line 81 *)
| AtClear                 (* line 82, update_event.clear() *)
| AtIncr                  (* line 83 *)
| Returned
| Raised (e : exn).

(** A call of the configurator, with the arguments it receives. *)
Record call : Type := { call_delay : Z; call_bw : Z; call_loss : Z }.

(** The state shared by the loop thread and the timer thread. [calls] and
    [selections] are histories kept for the statements: the configurator
    calls made so far and the clock readings the selector was invoked at. *)
Record state : Type := {
  update_event : bool;
  net : Mininet;
  pc : loc;
  updates : nat;
  calls : list call;
  selections : list float
}.

Definition set_pc (l : loc) (s : state) : state :=
  {| update_event := update_event s; net := net s; pc := l;
     updates := updates s; calls := calls s; selections := selections s |}.

Definition set_event (b : bool) (s : state) : state :=
  {| update_event := b; net := net s; pc := pc s;
     updates := updates s; calls := calls s; selections := selections s |}.

Definition set_updates (n : nat) (s : state) : state :=
  {| update_event := update_event s; net := net s; pc := pc s;
     updates := n; calls := calls s; selections := selections s |}.

(** One call of the configurator from the loop: the call is recorded, the
    network takes its effect, and an exception ends the thread. *)
Definition apply_call (self : NetworkConfigThread) (delay bw loss : Z) (next : loc)
    (s : state) : state :=
  let calls' := calls s ++ [{| call_delay := delay; call_bw := bw; call_loss := loss |}] in
  match configureStaticNetworkConditions self delay bw loss (net s) with
  | Ok net' =>
      {| update_event := update_event s; net := net'; pc := next;
         updates := updates s; calls := calls'; selections := selections s |}
  | Raise e =>
      {| update_event := update_event s; net := net s; pc := Raised e;
         updates := updates s; calls := calls'; selections := selections s |}
  end.

(** One call of the selector from the loop, at clock reading [now]. *)
Definition select (self : NetworkConfigThread) (now : float) (s : state) : state :=
  let s' :=
    {| update_event := update_event s; net := net s; pc := pc s;
       updates := updates s; calls := calls s; selections := selections s ++ [now] |} in
  match get_closest_latency self now with
  | Ok delay => set_pc (AtApply delay) s'
  | Raise e => set_pc (Raised e) s'
  end.

(** One step of the loop thread; [now] is what [time.time()] returns if
    the step reads the clock. [update_event.wait()] makes no step while
    the event is unset. *)
Definition loop_step (self : NetworkConfigThread) (max_updates : nat) (now : float)
    (s : state) : state :=
  match pc s with
  | AtBaseline => set_updates 0 (apply_call self 100 100 0 AtWhile s)
  | AtWhile => if (updates s <? max_updates)%nat then set_pc AtWait s else set_pc Returned s
  | AtWait => if update_event s then set_pc AtSelect s else s
  | AtSelect => select self now s
  | AtApply delay => apply_call self delay 100 0 AtClear s
  | AtClear => set_pc AtIncr (set_event false s)
  | AtIncr => set_pc AtWhile (set_updates (S (updates s)) s)
  | Returned => s
  | Raised _ => s
  end.

(** What can happen next: the timer thread sets the event, or the loop
    thread makes a step. *)
Inductive event : Type :=
| Tick
| Loop (now : float).

Definition step (self : NetworkConfigThread) (max_updates : nat) (ev : event)
    (s : state) : state :=
  match ev with
  | Tick => set_event true s
  | Loop now => loop_step self max_updates now s
  end.

(** A schedule of the two threads, from left to right. *)
Definition run (self : NetworkConfigThread) (max_updates : nat) (evs : list event)
    (s : state) : state :=
  fold_left (fun s ev => step self max_updates ev s) evs s.

(** [max_updates = 10], line 76. *)
Definition max_updates_default : nat := 10.

(** The state in which [configureNetworkConditions] is entered: the event
    is a fresh [threading.Event()]. *)
Definition initial_state (net0 : Mininet) : state :=
  {| update_event := false; net := net0; pc := AtBaseline;
     updates := 0; calls := []; selections := [] |}.

(** The calls made after the baseline one. *)
Definition dynamic_calls (s : state) : list call := tl (calls s).

(** The baseline call, [configureStaticNetworkConditions()] with the
    defaults of its signature. *)
Definition baseline_call : call := {| call_delay := 100; call_bw := 100; call_loss := 0 |}.

(** One full iteration of the loop in a schedule: a tick, then the six
    steps from the test of the loop back to it, the selector reading
    [now]. *)
Definition iteration (now : float) : list event :=
  Tick :: repeat (Loop now) 6.

(** A schedule that lets the loop run to its end: the baseline step, one
    iteration per clock reading, and the last test of the loop. *)
Definition full_schedule (t0 : float) (nows : list float) : list event :=
  Loop t0 :: flat_map iteration nows ++ [Loop t0].

(** ** Periodic trigger: [update_periodically] *)

(** What one invocation does, in order: [update_event.set()] and
    [scheduler.enter(delay, 1, update_periodically, (scheduler, start, step))]. *)
Inductive action : Type :=
| SetEvent
| Enter (delay start step : float).

Definition next_time (start step : float) : float := (start + step)%float.

Definition sleep_time (start step clock : float) : float :=
  (next_time start step - clock)%float.

(** [update_periodically(scheduler, start_time, step)]; [clock1] is the
    reading of [time.time()] at line 104 and [clock2] the one at line 113. *)
Definition update_periodically (start step clock1 clock2 : float) : list action :=
  if PyFloat.gt (sleep_time start step clock1) 0
  then [SetEvent; Enter (sleep_time start step clock1) (next_time start step) step]
  else [Enter 0 clock2 step].

(** The entry an invocation leaves in the scheduler's queue. *)
Fixpoint entered (acts : list action) : option (float * float * float) :=
  match acts with
  | [] => None
  | Enter d s st :: _ => Some (d, s, st)
  | SetEvent :: acts' => entered acts'
  end.

(** Whether an invocation sets the event. *)
Definition signals (acts : list action) : bool :=
  existsb (fun a => match a with SetEvent => true | Enter _ _ _ => false end) acts.







(** ** The reading loop of [convert_to_csv] *)

Section ConvertPingText.

(** The builtins the loop calls: [datetime] values, [s.strip()],
    [s.split(',')], [datetime.strptime(s, fmt)] and [float(s)], the last
    two [None] where Python raises. *)
Variable datetime : Type.
Variable strip : string -> string.
Variable split : string -> list string.
Variable strptime : string -> option datetime.
Variable py_float : string -> option float.

(** The body of the [try]: unpacking anything but two fields raises. *)
Definition parse_line (line : string) : result (datetime * float) :=
  match split (strip line) with
  | [ts_str; rtt_str] =>
      match strptime (strip ts_str) with
      | Some ts =>
          let* rtt := float_of_str py_float (strip rtt_str) in
          Ok (ts, rtt)
      | None => Raise ValueError
      end
  | _ => Raise ValueError
  end.

(** [for line in ...]: blank lines are passed over, and so is a line whose
    [try] body raises ([except Exception] prints and goes on). *)
Fixpoint read_lines (lines : list string) (timestamps : list datetime) (rtts : list float)
    : list datetime * list float :=
  match lines with
  | [] => (timestamps, rtts)
  | line :: lines' =>
      if String.eqb (strip line) ""
      then read_lines lines' timestamps rtts
      else
        match parse_line line with
        | Ok (ts, rtt) => read_lines lines' (timestamps ++ [ts]) (rtts ++ [rtt])
        | Raise _ => read_lines lines' timestamps rtts
        end
  end.

(** The samples [convert_to_csv] reads: [lines[1:]] skips the header. *)
Definition convert_to_csv_samples (lines : list string) : list datetime * list float :=
  read_lines (tl lines) [] [].

End ConvertPingText.

(** ** The bent-pipe topology of the script *)

Definition linked (name a b : string) : Intf :=
  {| intf_name := name; intf_link := Some (a, b) |}.

Definition tc_of (bw : Z) (delay : option string) (loss : option Z) : tc_config :=
  {| tc_bw := Some bw; tc_delay := delay; tc_loss := loss |}.

(** The network after [net.start()]: user - router - pop - dst, each
    [addLink] shaping both ends of its link with the link's parameters. *)
Definition bent_pipe : Mininet :=
  {| nameToNode :=
       list_to_map
         [("user", [linked "user-eth0" "user-eth0" "router-eth0"]);
          ("router", [linked "router-eth0" "user-eth0" "router-eth0";
                      linked "router-eth1" "router-eth1" "pop-eth0"]);
          ("pop", [linked "pop-eth0" "router-eth1" "pop-eth0";
                   linked "pop-eth1" "pop-eth1" "dst-eth0"]);
          ("dst", [linked "dst-eth0" "pop-eth1" "dst-eth0"])];
     shaping :=
       list_to_map
         [("user-eth0", tc_of 1000 None None);
          ("router-eth0", tc_of 1000 None None);
          ("router-eth1", tc_of 100 (Some "100ms") (Some 0));
          ("pop-eth0", tc_of 100 (Some "100ms") (Some 0));
          ("pop-eth1", tc_of 1000 None None);
          ("dst-eth0", tc_of 1000 None None)] |}.

(** The thread of the script, [NetworkConfigThread(net, "router",
    "router-eth1", ...)], on the trace of the scenario, started at 0. *)
Definition scenario_thread : NetworkConfigThread :=
  {| host_name := "router"; dev := "router-eth1";
     latency := [(0.0, 100.0); (1.0, 300.0); (2.0, 50.0)]%float;
     start_time := 0%float |}.

(** The same thread with a device name no interface of the router has. *)
Definition unresolved_thread : NetworkConfigThread :=
  {| host_name := "router"; dev := "router-eth9";
     latency := [(0.0, 100.0); (1.0, 300.0); (2.0, 50.0)]%float;
     start_time := 0%float |}.

(** The shaping a call with [delay] and [loss] requests on an interface. *)
Definition requested (delay loss : Z) : tc_config :=
  {| tc_bw := None; tc_delay := Some (delay_ms delay); tc_loss := Some loss |}.

(** ** Notions used in the statements about the loop *)

(** The number of times the timer thread sets the event in a schedule. *)
Fixpoint ticks (evs : list event) : nat :=
  match evs with
  | [] => 0%nat
  | Tick :: evs' => S (ticks evs')
  | Loop _ :: evs' => ticks evs'
  end.

(** A trace the selector succeeds on at every time: it has a sample, and
    the half of every stored value is a number. *)
Definition trace_ok (T : trace) : bool :=
  match T with
  | [] => false
  | _ :: _ => forallb (fun kv => PyFloat.is_number (snd kv / 2)%float) T
  end.

(** What the selector returns where it returns. *)
Definition selected (self : NetworkConfigThread) (now : float) : Z :=
  match get_closest_latency self now with
  | Ok delay => delay
  | Raise _ => 0
  end.

(** The dynamic call the loop makes for the clock reading [now]. *)
Definition dynamic_call (self : NetworkConfigThread) (now : float) : call :=
  {| call_delay := selected self now; call_bw := 100; call_loss := 0 |}.

(** The invariant of the loop, for [N = max_updates] and [t] ticks so
    far: the baseline call comes first, the dynamic calls are counted by
    [updates] and bounded by [N], and each of them has a tick of its own. *)
Definition loop_inv (N t : nat) (s : state) : Prop :=
  let d := length (dynamic_calls s) in
  let pending := if update_event s then 1%nat else 0%nat in
  let based := exists dyn, calls s = baseline_call :: dyn in
  match pc s with
  | AtBaseline => calls s = [] /\ (pending <= t)%nat
  | AtWhile => based /\ d = updates s /\ (updates s <= N)%nat /\ (d + pending <= t)%nat
  | AtWait => based /\ d = updates s /\ (updates s < N)%nat /\ (d + pending <= t)%nat
  | AtSelect => based /\ d = updates s /\ (updates s < N)%nat /\ (d + 1 <= t)%nat
  | AtApply _ => based /\ d = updates s /\ (updates s < N)%nat /\ (d + 1 <= t)%nat
  | AtClear => based /\ d = S (updates s) /\ (updates s < N)%nat /\ (d <= t)%nat
  | AtIncr => based /\ d = S (updates s) /\ (updates s < N)%nat /\ (d + pending <= t)%nat
  | Returned => based /\ d = N /\ updates s = N /\ (d <= t)%nat
  | Raised _ => based /\ (d <= N)%nat /\ (d <= t)%nat
  end.

(** The loop thread has not raised, and its node is known to the network. *)
Definition alive (self : NetworkConfigThread) (s : state) : Prop :=
  is_Some (nameToNode (net s) !! host_name self) /\
  match pc s with Raised _ => False | _ => True end.

(** The loop steps of a schedule, one per clock reading. *)
Definition loops (nows : list float) : list event := map Loop nows.

(** ** Notions used in the statements about the trace store *)

(** A row the loader cannot store: it has no field 1 or 2, or one of the
    two is not a number for [float]. *)
Definition malformed (py_float : string -> option float) (row : list string) : bool :=
  match nth_error row 1, nth_error row 2 with
  | Some s1, Some s2 =>
      match py_float s1, py_float s2 with
      | Some _, Some _ => false
      | _, _ => true
      end
  | _, _ => true
  end.

(** The sample a row stores, where the row is well formed. *)
Definition sample_of (py_float : string -> option float) (row : list string)
    : option (float * float) :=
  match nth_error row 1, nth_error row 2 with
  | Some s1, Some s2 =>
      match py_float s1, py_float s2 with
      | Some k, Some v => Some (k, v)
      | _, _ => None
      end
  | _, _ => None
  end.

(** A line the converter passes over: blank, or its [try] body raises. *)
Definition rejected {datetime : Type} (strip : string -> string)
    (split : string -> list string) (strptime : string -> option datetime)
    (py_float : string -> option float) (line : string) : bool :=
  String.eqb (strip line) "" ||
  negb (returns (parse_line datetime strip split strptime py_float line)).

(** ** Builtins on plain inputs, for the examples *)

(** [float] on plain decimal literals ([digits], [digits.digits]) short
    enough for the quotient of two exact floats to be the nearest float;
    every other string is refused. *)
Fixpoint decimal_digits (s : string) (mantissa : Z) (digits : nat) (point : option nat)
    : option (Z * nat * nat) :=
  match s with
  | EmptyString => Some (mantissa, digits, match point with Some k => k | None => 0%nat end)
  | String c s' =>
      let n := Z.of_nat (nat_of_ascii c) in
      if (n =? 46) then
        match point with
        | None => decimal_digits s' mantissa digits (Some 0%nat)
        | Some _ => None
        end
      else if (48 <=? n) && (n <=? 57) then
        decimal_digits s' (10 * mantissa + (n - 48)) (S digits) (option_map S point)
      else None
  end.

Definition float_of_Z (z : Z) : float := PrimFloat.of_uint63 (Uint63.of_Z z).

Definition decimal_float (s : string) : option float :=
  match decimal_digits s 0 0 None with
  | Some (mantissa, digits, scale) =>
      if (0 <? digits)%nat && (digits <=? 15)%nat
      then Some (float_of_Z mantissa / float_of_Z (10 ^ Z.of_nat scale))%float
      else None
  | None => None
  end.

(** [s.split(',')]. *)
Fixpoint split_commas (s : string) (field : string) : list string :=
  match s with
  | EmptyString => [field]
  | String c s' =>
      if Ascii.eqb c ","%char then field :: split_commas s' EmptyString
      else split_commas s' (field +:+ String c EmptyString)
  end.

(** [s.strip()] on strings whose only white space is the blank. *)
Fixpoint lstrip_blanks (s : string) : string :=
  match s with
  | String c s' => if Ascii.eqb c " "%char then lstrip_blanks s' else s
  | EmptyString => s
  end.

Definition strip_blanks (s : string) : string :=
  String.rev (lstrip_blanks (String.rev (lstrip_blanks s))).

(** A stand-in for [datetime.strptime]: the time stamp is kept as its
    text, and an empty text is refused. *)
Definition timestamp_text (s : string) : option string :=
  if String.eqb s "" then None else Some s.

(** The thread of the script on a trace file that has a header row only. *)
Definition header_only_rows : list (list string) := [["timestamp"; "relative"; "rtt"]].

Definition empty_trace_thread : NetworkConfigThread :=
  {| host_name := "router"; dev := "router-eth1"; latency := []; start_time := 0%float |}.

(** The loop of the script waiting on the bent-pipe topology, the
    baseline applied. *)
Definition waiting_state : state :=
  {| update_event := false; net := bent_pipe; pc := AtWait; updates := 0;
     calls := [baseline_call]; selections := [] |}.

(** The loop has not got past the selector: it has made the baseline
    call at most. *)
Definition before_first_update (s : state) : Prop :=
  match pc s with
  | AtBaseline => calls s = []
  | AtWhile | AtWait | AtSelect | Returned | Raised _ => length (calls s) = 1%nat
  | AtApply _ | AtClear | AtIncr => False
  end.

(** ** Notions used in the further statements about the configurator *)

(** The interfaces a configurator call reaches: both ends of the link of
    every interface of the node that bears the device name. *)
Definition link_ends (device : string) (intfList : list Intf) : list string :=
  flat_map (fun intf => match intf_link intf with
                        | Some (a, b) =>
                            if String.eqb (intf_name intf) device then [a; b] else []
                        | None => []
                        end) intfList.

(** ** The thread as a whole: [NetworkConfigThread.run] *)

(** [run] starts the timer thread on a scheduler that holds one entry,
    [update_periodically(scheduler, self.start_time, latency_update_interval)],
    and then runs the loop. What can happen next: the scheduler calls the
    entry it holds, the call reading the clock as [clock1] and [clock2], or
    the loop thread makes a step. *)
Inductive thread_event : Type :=
| TimerCall (clock1 clock2 : float)
| LoopStep (now : float).

(** The loop's state together with the arguments of the entry the
    scheduler holds. *)
Record thread_state : Type := {
  loop_state : state;
  entry_start : float;
  entry_step : float
}.

(** [latency_update_interval = 1], line 47. *)
Definition latency_update_interval : float := 1%float.

(** The state [run] sets up: the first entry has [self.start_time] and the
    update interval as its arguments. *)
Definition thread_start (self : NetworkConfigThread) (net0 : Mininet) : thread_state :=
  {| loop_state := initial_state net0;
     entry_start := start_time self;
     entry_step := latency_update_interval |}.

Definition thread_step (self : NetworkConfigThread) (max_updates : nat)
    (ev : thread_event) (st : thread_state) : thread_state :=
  match ev with
  | TimerCall clock1 clock2 =>
      let acts := update_periodically (entry_start st) (entry_step st) clock1 clock2 in
      let loop' := if signals acts then set_event true (loop_state st) else loop_state st in
      match entered acts with
      | Some (_, start', step') =>
          {| loop_state := loop'; entry_start := start'; entry_step := step' |}
      | None =>
          {| loop_state := loop'; entry_start := entry_start st; entry_step := entry_step st |}
      end
  | LoopStep now =>
      {| loop_state := loop_step self max_updates now (loop_state st);
         entry_start := entry_start st; entry_step := entry_step st |}
  end.

Definition thread_run (self : NetworkConfigThread) (max_updates : nat)
    (evs : list thread_event) (st : thread_state) : thread_state :=
  fold_left (fun st ev => thread_step self max_updates ev st) evs st.

(** The number of timer calls of a schedule that find [sleep_time > 0],
    the first one called with the arguments [start] and [step]. *)
Fixpoint on_time_calls (start step : float) (evs : list thread_event) : nat :=
  match evs with
  | [] => 0%nat
  | LoopStep _ :: evs' => on_time_calls start step evs'
  | TimerCall clock1 clock2 :: evs' =>
      if PyFloat.gt (sleep_time start step clock1) 0
      then S (on_time_calls (next_time start step) step evs')
      else on_time_calls clock2 step evs'
  end.

(** The network after the dynamic calls for the clock readings [nows],
    made in this order from the network [nt]. *)
Fixpoint net_after (self : NetworkConfigThread) (nows : list float) (nt : Mininet) : Mininet :=
  match nows with
  | [] => nt
  | now :: nows' =>
      match configureStaticNetworkConditions self (selected self now) 100 0 nt with
      | Ok nt' => net_after self nows' nt'
      | Raise _ => nt
      end
  end.

(** The schedule of the loop and of the event that a schedule of the
    whole thread amounts to: a timer call that is on time is a tick, a
    late one is nothing. *)
Fixpoint loop_events (start step : float) (evs : list thread_event) : list event :=
  match evs with
  | [] => []
  | LoopStep now :: evs' => Loop now :: loop_events start step evs'
  | TimerCall clock1 clock2 :: evs' =>
      if PyFloat.gt (sleep_time start step clock1) 0
      then Tick :: loop_events (next_time start step) step evs'
      else loop_events clock2 step evs'
  end.

(** ** The rest of [convert_to_csv]: what is written *)

(** [s[:-3]]: the string without its last three characters. *)
Definition drop_last3 (s : string) : string :=
  String.substring 0 (String.length s - 3) s.

(** A row of the output file, as [writer.writerow] receives it. *)
Record csv_row : Type := {
  row_timestamp : string;
  row_relative : string;
  row_rtt : float
}.

Section ConvertOutput.

(** The builtins of the reading loop, and those of the writing loop:
    [ts.strftime(fmt)], [(ts - base_time).total_seconds()] and the format
    [f"{x:.3f}"]. *)
Variable datetime : Type.
Variable strip : string -> string.
Variable split : string -> list string.
Variable strptime : string -> option datetime.
Variable py_float : string -> option float.
Variable strftime : datetime -> string.
Variable seconds_between : datetime -> datetime -> float.
Variable format_3f : float -> string.

(** The body of [for ts, rtt in zip(timestamps, rtts)]. *)
Definition output_row (base_time : datetime) (sample : datetime * float) : csv_row :=
  {| row_timestamp := drop_last3 (strftime (fst sample));
     row_relative := format_3f (seconds_between (fst sample) base_time);
     row_rtt := snd sample |}.

(** [convert_to_csv], on the lines of the input file: [None] when the
    function returns before it opens the output file, and otherwise the
    rows it writes after the header of the output. *)
Definition convert_to_csv (lines : list string) : option (list csv_row) :=
  let (timestamps, rtts) :=
    convert_to_csv_samples datetime strip split strptime py_float lines in
  match timestamps with
  | [] => None
  | base_time :: _ => Some (map (output_row base_time) (combine timestamps rtts))
  end.

(** The samples of the lines the loop accepts, in the order of the lines. *)
Definition accepted_samples (lines : list string) : list (datetime * float) :=
  flat_map (fun line =>
              if String.eqb (strip line) "" then []
              else match parse_line datetime strip split strptime py_float line with
                   | Ok sample => [sample]
                   | Raise _ => []
                   end) lines.

End ConvertOutput.

(** ** Round-trip times from a capture: [icmp_rtt_plot.py] *)

(** The ICMP header of a packet: [icmp.type], [icmp.id], [icmp.seq]. *)
Record icmp_header : Type := {
  icmp_type : Z;
  icmp_id : Z;
  icmp_seq : Z
}.

Section IcmpRtt.

(** The time stamps of packets and the arithmetic of the script on them:
    [(rep_time - req_time) * 1000], and the two comparisons of
    [0 < rtt_ms < 10000]. *)
Variable time : Type.
Variable millis : Type.
Variable rtt_ms : time -> time -> millis.
Variable positive_ms : millis -> bool.
Variable below_10000 : millis -> bool.

(** A packet of the capture: whether it has an IP layer ([IP in pkt]), its
    ICMP layer if it has one ([ICMP in pkt], [pkt[ICMP]]), and [pkt.time]. *)
Record packet : Type := {
  has_ip : bool;
  icmp : option icmp_header;
  pkt_time : time
}.

(** An entry of [echo_requests] or [echo_replies]: [(id, seq, time)]. *)
Record echo : Type := {
  echo_id : Z;
  echo_seq : Z;
  echo_time : time
}.

(** Step 2: the echo requests (type 8) and the echo replies (type 0) of
    the capture, in its order. *)
Fixpoint extract (packets : list packet) : list echo * list echo :=
  match packets with
  | [] => ([], [])
  | pkt :: packets' =>
      let (echo_requests, echo_replies) := extract packets' in
      match has_ip pkt, icmp pkt with
      | true, Some hdr =>
          let entry := {| echo_id := icmp_id hdr; echo_seq := icmp_seq hdr;
                          echo_time := pkt_time pkt |} in
          if icmp_type hdr =? 8 then (entry :: echo_requests, echo_replies)
          else if icmp_type hdr =? 0 then (echo_requests, entry :: echo_replies)
          else (echo_requests, echo_replies)
      | _, _ => (echo_requests, echo_replies)
      end
  end.

Definition same_echo (req rep : echo) : bool :=
  (echo_id rep =? echo_id req) && (echo_seq rep =? echo_seq req).

(** The inner loop of step 3: the first reply with the id and the
    sequence number of the request, and [echo_replies] after
    [del echo_replies[i]]. *)
Fixpoint find_reply (req : echo) (echo_replies : list echo) : option (echo * list echo) :=
  match echo_replies with
  | [] => None
  | rep :: echo_replies' =>
      if same_echo req rep then Some (rep, echo_replies')
      else match find_reply req echo_replies' with
           | Some (found, rest) => Some (found, rep :: rest)
           | None => None
           end
  end.

Definition valid_rtt (x : millis) : bool := positive_ms x && below_10000 x.

(** The outer loop of step 3: the samples appended to [rtts], and
    [echo_replies] as the loop leaves it. *)
Fixpoint match_rtts (echo_requests echo_replies : list echo)
    : list (time * millis) * list echo :=
  match echo_requests with
  | [] => ([], echo_replies)
  | req :: echo_requests' =>
      match find_reply req echo_replies with
      | Some (rep, echo_replies') =>
          let x := rtt_ms (echo_time rep) (echo_time req) in
          let (rtts, left) := match_rtts echo_requests' echo_replies' in
          (if valid_rtt x then (echo_time req, x) :: rtts else rtts, left)
      | None => match_rtts echo_requests' echo_replies
      end
  end.

(** Steps 2 to 4: the samples, and what is saved: nothing when there is
    no sample ([exit()] comes before the file is opened), and otherwise
    the rows that follow the header. *)
Definition rtt_samples (packets : list packet) : list (time * millis) :=
  let (echo_requests, echo_replies) := extract packets in
  fst (match_rtts echo_requests echo_replies).

Definition saved_rows (packets : list packet) : option (list (time * millis)) :=
  match rtt_samples packets with
  | [] => None
  | rtts => Some rtts
  end.

(** A packet is an echo request, or an echo reply, with the given id and
    sequence number. *)
Definition is_echo (type : Z) (pkt : packet) (entry : echo) : Prop :=
  has_ip pkt = true /\
  exists hdr, icmp pkt = Some hdr /\ icmp_type hdr = type /\
              icmp_id hdr = echo_id entry /\ icmp_seq hdr = echo_seq entry /\
              pkt_time pkt = echo_time entry.

End IcmpRtt.

(** ** A capture, for the examples *)

(** Time stamps in whole seconds, round-trip times in whole milliseconds. *)
Definition seconds_to_ms (rep_time req_time : Z) : Z := (rep_time - req_time) * 1000.

Definition icmp_packet (type id seq time : Z) : packet Z :=
  {| has_ip := true;
     icmp := Some {| icmp_type := type; icmp_id := id; icmp_seq := seq |};
     pkt_time := time |}.

(** Two echo requests and their replies, a destination-unreachable
    message between them, and a packet without an ICMP layer. *)
Definition capture : list (packet Z) :=
  [icmp_packet 8 7 1 100; icmp_packet 0 7 1 101;
   icmp_packet 3 0 0 102;
   {| has_ip := true; icmp := None; pkt_time := 103 |};
   icmp_packet 8 7 2 104; icmp_packet 0 7 2 106].

(** The thread set on a node the bent-pipe topology does not have. *)
Definition unknown_node_thread : NetworkConfigThread :=
  {| host_name := "satellite"; dev := "router-eth1";
     latency := [(0.0, 100.0)]%float; start_time := 0%float |}.

(** * Properties *)

(** ** The order of IEEE comparisons *)

Module FloatOrder.

Ltac sf_order :=
  unfold SFltb, SFleb, SFeqb, SFcompare;
  repeat match goal with
  | x : spec_float |- _ => destruct x
  | b : bool |- _ => destruct b
  end;
  simpl; try congruence;
  repeat match goal with
  | |- context [Pos.compare_cont Eq ?a ?b] =>
      change (Pos.compare_cont Eq a b) with (Pos.compare a b)
  | |- context [Z.compare ?a ?b] => destruct (Z.compare_spec a b)
  | |- context [Pos.compare ?a ?b] => destruct (Pos.compare_spec a b)
  end; simpl; try congruence; try lia.

Lemma SFltb_leb_trans x y b :
  SFltb y b = true -> SFltb x b = false -> SFleb x y = false.
Proof. sf_order. Qed.

Lemma SFleb_ltb_trans x y b :
  SFltb y b = true -> SFleb x b = false -> SFleb x y = false.
Proof. sf_order. Qed.

Lemma SFltb_not_leb y b : SFltb y b = true -> SFleb b y = false.
Proof. sf_order. Qed.

Lemma SFleb_false_ltb x y : SFleb x y = false -> SFltb x y = false.
Proof. sf_order. Qed.


Lemma SFeqb_trans_l x y z : SFeqb x y = true -> SFeqb x z = true -> SFeqb z y = true.
Proof. sf_order. Qed.

Lemma SFltb_irrefl x : SFltb x x = false.
Proof. sf_order. Qed.

Lemma SFeqb_refl_not_nan x : SFeqb x x = false -> x = S754_nan.
Proof. sf_order. Qed.

(** The same facts on Python floats. *)

Lemma lt_le_trans x y b :
  PyFloat.lt y b = true -> PyFloat.lt x b = false -> PyFloat.le x y = false.
Proof.
  unfold PyFloat.lt, PyFloat.le. rewrite !FloatAxioms.ltb_spec, FloatAxioms.leb_spec.
  apply SFltb_leb_trans.
Qed.

Lemma le_lt_trans x y b :
  PyFloat.lt y b = true -> PyFloat.le x b = false -> PyFloat.le x y = false.
Proof.
  unfold PyFloat.lt, PyFloat.le. rewrite FloatAxioms.ltb_spec, !FloatAxioms.leb_spec.
  apply SFleb_ltb_trans.
Qed.

Lemma lt_not_le y b : PyFloat.lt y b = true -> PyFloat.le b y = false.
Proof.
  unfold PyFloat.lt, PyFloat.le. rewrite FloatAxioms.ltb_spec, FloatAxioms.leb_spec.
  apply SFltb_not_leb.
Qed.

Lemma le_false_lt x y : PyFloat.le x y = false -> PyFloat.lt x y = false.
Proof.
  unfold PyFloat.lt, PyFloat.le. rewrite FloatAxioms.ltb_spec, FloatAxioms.leb_spec.
  apply SFleb_false_ltb.
Qed.


Lemma eq_trans_l x y z :
  PyFloat.eq x y = true -> PyFloat.eq x z = true -> PyFloat.eq z y = true.
Proof. unfold PyFloat.eq. rewrite !FloatAxioms.eqb_spec. apply SFeqb_trans_l. Qed.

Lemma lt_irrefl x : PyFloat.lt x x = false.
Proof. unfold PyFloat.lt. rewrite FloatAxioms.ltb_spec. apply SFltb_irrefl. Qed.

Lemma is_nan_SF x : PrimFloat.is_nan x = true -> Prim2SF x = S754_nan.
Proof.
  unfold PrimFloat.is_nan. rewrite FloatAxioms.eqb_spec. intros H.
  apply SFeqb_refl_not_nan. now apply negb_true_iff.
Qed.

(** A NaN key is at a NaN distance from every elapsed time. *)
Lemma distance_nan e k :
  PrimFloat.is_nan k = true -> Prim2SF (distance e k) = S754_nan.
Proof.
  intros H. unfold distance.
  rewrite FloatAxioms.abs_spec, FloatAxioms.sub_spec, (is_nan_SF _ H). reflexivity.
Qed.

Lemma lt_nan_l x y : Prim2SF x = S754_nan -> PyFloat.lt x y = false.
Proof. unfold PyFloat.lt. rewrite FloatAxioms.ltb_spec. intros ->. reflexivity. Qed.

Lemma same_key_refl k : PyFloat.same_key k k = true.
Proof.
  unfold PyFloat.same_key, PyFloat.eq, PrimFloat.is_nan.
  destruct (PrimFloat.eqb k k); reflexivity.
Qed.

End FloatOrder.

(** ** [min] with a key *)

Section PyMin.

Context {A : Type} (f : A -> float).

Lemma fold_min_spec (rest pre : list A) (b : A) (mid : list A) :
  first_minimum f pre b mid ->
  exists pre' k post',
    pre ++ b :: mid ++ rest = pre' ++ k :: post' /\
    fold_left (fun best y => if PyFloat.lt (f y) (f best) then y else best) rest b = k /\
    first_minimum f pre' k post'.
Proof.
  revert pre b mid.
  induction rest as [|y rest IH]; intros pre b mid (Hpre & Hmid & Hhead).
  - exists pre, b, mid. rewrite app_nil_r. repeat split; auto.
  - simpl. destruct (PyFloat.lt (f y) (f b)) eqn:Hlt.
    + destruct (IH (pre ++ b :: mid) y []) as (pre' & k & post' & Heq & Hk & Hmin).
      { repeat split.
        - intros x Hx. apply in_app_or in Hx. destruct Hx as [Hx | [<- | Hx]].
          + eapply FloatOrder.le_lt_trans; eauto.
          + now apply FloatOrder.lt_not_le.
          + eapply FloatOrder.lt_le_trans; eauto.
        - intros x [].
        - right. now exists b. }
      exists pre', k, post'. split; [|now split].
      rewrite <- Heq. rewrite <- !app_assoc. reflexivity.
    + destruct (IH pre b (mid ++ [y])) as (pre' & k & post' & Heq & Hk & Hmin).
      { repeat split; auto.
        intros x Hx. apply in_app_or in Hx. destruct Hx as [Hx | [<- | []]]; auto. }
      exists pre', k, post'. split; [|now split].
      rewrite <- Heq. rewrite <- !app_assoc. reflexivity.
Qed.

(** [min] never fails on a non-empty sequence and returns its first
    minimum. *)
Lemma py_min_spec (xs : list A) :
  xs <> [] ->
  exists pre k post,
    xs = pre ++ k :: post /\ py_min f xs = Ok k /\ first_minimum f pre k post.
Proof.
  destruct xs as [|x xs]; [congruence|]. intros _.
  destruct (fold_min_spec xs [] x []) as (pre & k & post & Heq & Hk & Hmin).
  { repeat split; auto; intros ? []. }
  exists pre, k, post. simpl in Heq. repeat split; try apply Hmin; auto.
  unfold py_min. now rewrite Hk.
Qed.

Lemma first_minimum_lt pre k post x :
  first_minimum f pre k post -> In x (pre ++ k :: post) ->
  PyFloat.lt (f x) (f k) = false.
Proof.
  intros (Hpre & Hpost & _) Hx. apply in_app_or in Hx.
  destruct Hx as [Hx | [<- | Hx]]; auto using FloatOrder.le_false_lt, FloatOrder.lt_irrefl.
Qed.

End PyMin.

(** ** Dictionary lookups *)

Lemma dict_ok_earlier_keys (l1 : trace) k v (l2 : trace) k' :
  dict_ok (l1 ++ (k, v) :: l2) = true -> In k' (keys l1) -> PyFloat.eq k' k = false.
Proof.
  induction l1 as [|[k1 v1] l1 IH]; simpl; [intros _ []|].
  intros Hok [<- | Hin].
  - apply andb_prop in Hok as [Hall _].
    rewrite forallb_forall in Hall.
    apply negb_true_iff, Hall. unfold keys. rewrite map_app. simpl.
    apply in_or_app. right. now left.
  - apply andb_prop in Hok as [_ Hok]. auto.
Qed.

(** The lookup of a key of the dictionary that no earlier entry matches
    returns the value stored with it. *)
Lemma dict_getitem_at (l1 : trace) k v (l2 : trace) :
  (forall k', In k' (keys l1) -> PyFloat.same_key k' k = false) ->
  dict_getitem (l1 ++ (k, v) :: l2) k = v.
Proof.
  induction l1 as [|[k1 v1] l1 IH]; simpl; intros Hne.
  - now rewrite FloatOrder.same_key_refl.
  - rewrite (Hne k1) by now left. apply IH. intros k' Hk'. apply Hne. now right.
Qed.

Lemma keys_split (T : trace) pre k post :
  keys T = pre ++ k :: post ->
  exists l1 v l2, T = l1 ++ (k, v) :: l2 /\ keys l1 = pre /\ keys l2 = post.
Proof.
  revert T. induction pre as [|p pre IH]; intros [|[k1 v1] T]; simpl; try discriminate.
  - intros [= -> <-]. now exists [], v1, T.
  - intros [= -> HT]. destruct (IH _ HT) as (l1 & v & l2 & -> & <- & <-).
    now exists ((p, v1) :: l1), v, l2.
Qed.

(** [min] returns a NaN key only when it is the first key: a NaN key is at
    a NaN distance and beats nothing. *)
Lemma py_min_nan_head e pre k post :
  first_minimum (distance e) pre k post -> PrimFloat.is_nan k = true -> pre = [].
Proof.
  intros (_ & _ & [Hnil | [b Hb]]) Hnan; [assumption|].
  rewrite FloatOrder.lt_nan_l in Hb by now apply FloatOrder.distance_nan.
  discriminate.
Qed.

(** In a dictionary, the key [min] selects is looked up at its own entry. *)
Lemma selected_entry e (l1 : trace) k v (l2 : trace) :
  dict_ok (l1 ++ (k, v) :: l2) = true ->
  first_minimum (distance e) (keys l1) k (keys l2) ->
  dict_getitem (l1 ++ (k, v) :: l2) k = v.
Proof.
  intros Hok Hmin. apply dict_getitem_at. intros k' Hk'.
  unfold PyFloat.same_key.
  rewrite (dict_ok_earlier_keys _ _ _ _ _ Hok Hk'). simpl.
  destruct (PrimFloat.is_nan k) eqn:Hnan; [|apply andb_false_r].
  rewrite (py_min_nan_head _ _ _ _ Hmin Hnan) in Hk'. destruct Hk'.
Qed.

Lemma int_is_number x : PyFloat.is_number x = true -> exists z, PyFloat.int x = Ok z.
Proof.
  unfold PyFloat.is_number, PyFloat.int.
  destruct (Prim2SF x); try discriminate; eauto.
Qed.

(** ** C1: the nearest-sample selector *)

(** C1. For every non-empty trace, at every clock reading, the selector
    returns [int(T[k] / 2)] for the key [k] of the trace at the least
    distance [|k - e|] from the elapsed time [e = now - start_time], where
    ties go to the first such key in the order of the trace: no key is
    strictly closer than [k], and every earlier key is strictly farther
    (or at an unordered distance). In a dictionary [T[k]] is the value
    stored with [k]; the call returns an integer whenever the half of that
    value is a number. On the rows [(0.0, 100.0)], [(1.0, 300.0)],
    [(2.0, 50.0)] at elapsed time 0.9 it returns 150. *)
Theorem C1_closest_latency_half_of_nearest (self : NetworkConfigThread) (now : float) :
  latency self <> [] ->
  let T := latency self in
  let e := (now - start_time self)%float in
  (exists pre k post,
     keys T = pre ++ k :: post /\
     (forall k', In k' (keys T) -> PyFloat.lt (distance e k') (distance e k) = false) /\
     (forall k', In k' pre -> PyFloat.le (distance e k') (distance e k) = false) /\
     get_closest_latency self now = PyFloat.int (dict_getitem T k / 2)%float /\
     (dict_ok T = true -> In (k, dict_getitem T k) T) /\
     (PyFloat.is_number (dict_getitem T k / 2)%float = true ->
      exists z, get_closest_latency self now = Ok z)) /\
  closest_latency [(0.0, 100.0); (1.0, 300.0); (2.0, 50.0)]%float 0.9%float = Ok 150.
Proof.
  intros Hne T e. split; [|vm_compute; reflexivity].
  assert (Hk : keys T <> []).
  { subst T. destruct (latency self); [congruence | discriminate]. }
  destruct (py_min_spec (distance e) (keys T) Hk) as (pre & k & post & Hkeys & Hmin & Hfirst).
  assert (Hres : get_closest_latency self now = PyFloat.int (dict_getitem T k / 2)%float).
  { unfold get_closest_latency, closest_latency. fold e. fold T. now rewrite Hmin. }
  exists pre, k, post. repeat split.
  - exact Hkeys.
  - intros k' Hk'. apply (first_minimum_lt _ pre k post); [assumption|].
    now rewrite <- Hkeys.
  - apply Hfirst.
  - exact Hres.
  - intros Hok. destruct (keys_split T pre k post Hkeys) as (l1 & v & l2 & HT & <- & <-).
    rewrite HT in Hok |- *.
    rewrite (selected_entry e l1 k v l2 Hok Hfirst).
    apply in_or_app. right. now left.
  - intros Hnum. rewrite Hres. now apply int_is_number.
Qed.

(** The selector on the trace of the scenario, read 0.9 s after the
    start. *)
Lemma C1_closest_latency_witness :
  latency scenario_thread <> [] /\
  exists k, In k (keys (latency scenario_thread)) /\
    get_closest_latency scenario_thread 0.9%float =
    PyFloat.int (dict_getitem (latency scenario_thread) k / 2)%float.
Proof.
  split; [discriminate|].
  destruct (C1_closest_latency_half_of_nearest scenario_thread 0.9%float)
    as [(pre & k & post & Hkeys & _ & _ & Hres & _) _]; [discriminate|].
  exists k. split; [|exact Hres].
  rewrite Hkeys. apply in_or_app. right. now left.
Defined.

(** ** The link configurator *)

Lemma configure_intf_nodes self delay loss net intf :
  nameToNode (configure_intf self delay loss net intf) = nameToNode net.
Proof.
  unfold configure_intf. destruct (intf_link intf) as [[a b]|]; [|reflexivity].
  destruct (String.eqb _ _); reflexivity.
Qed.

Lemma fold_configure_nodes self delay loss intfs net :
  nameToNode (fold_left (configure_intf self delay loss) intfs net) = nameToNode net.
Proof.
  revert net. induction intfs as [|i intfs IH]; intros net; simpl; [reflexivity|].
  now rewrite IH, configure_intf_nodes.
Qed.

(** The configurator leaves the nodes and their interfaces as they are. *)
Lemma configure_nodes self delay bw loss net net' :
  configureStaticNetworkConditions self delay bw loss net = Ok net' ->
  nameToNode net' = nameToNode net.
Proof.
  unfold configureStaticNetworkConditions.
  destruct (nameToNode net !! host_name self); [|discriminate].
  intros [= <-]. apply fold_configure_nodes.
Qed.

(** A shaping equal to the requested one stays so through the loop. *)
Lemma fold_configure_keeps self delay loss intfs net x :
  shaping net !! x = Some (requested delay loss) ->
  shaping (fold_left (configure_intf self delay loss) intfs net) !! x
  = Some (requested delay loss).
Proof.
  revert net. induction intfs as [|i intfs IH]; intros net Hx; simpl; [assumption|].
  apply IH. unfold configure_intf.
  destruct (intf_link i) as [[a b]|]; [|assumption].
  destruct (String.eqb _ _); [|assumption].
  unfold intf_config, requested in *. simpl.
  rewrite !lookup_insert. repeat case_decide; auto.
Qed.

Lemma fold_configure_sets self delay loss intfs net intf a b :
  In intf intfs -> intf_name intf = dev self -> intf_link intf = Some (a, b) ->
  let net' := fold_left (configure_intf self delay loss) intfs net in
  shaping net' !! a = Some (requested delay loss) /\
  shaping net' !! b = Some (requested delay loss).
Proof.
  revert net. induction intfs as [|i intfs IH]; intros net Hin Hname Hlink; [destruct Hin|].
  destruct Hin as [-> | Hin]; [|now apply IH].
  simpl. split; apply fold_configure_keeps; unfold configure_intf;
    rewrite Hlink, Hname, String.eqb_refl; unfold intf_config, requested; simpl;
    rewrite !lookup_insert; repeat case_decide; auto; congruence.
Qed.

Lemma fold_configure_unresolved self delay loss intfs net :
  resolves (dev self) intfs = false ->
  fold_left (configure_intf self delay loss) intfs net = net.
Proof.
  induction intfs as [|i intfs IH]; simpl; [reflexivity|].
  intros H. apply orb_false_elim in H as [Hi Hrest].
  unfold configure_intf at 2.
  destruct (intf_link i) as [[a b]|]; [rewrite Hi|]; auto.
Qed.

(** ** C8: what a configurator call sets *)

(** C8 (code defect: the bandwidth is not applied). For every call
    [configureStaticNetworkConditions(delay, bw, loss)] on a link that
    resolves, both ends of the link are shaped with the same delay
    [f"{delay}ms"] and with the given loss, but with no bandwidth: [bw] is
    not passed to [config], and the call has the same outcome for every
    value of [bw]. *)
Theorem C8_bandwidth_not_applied (self : NetworkConfigThread) (delay bw loss : Z)
    (net : Mininet) (intfs : list Intf) (intf : Intf) (a b : string) :
  nameToNode net !! host_name self = Some intfs ->
  In intf intfs -> intf_name intf = dev self -> intf_link intf = Some (a, b) ->
  exists net',
    configureStaticNetworkConditions self delay bw loss net = Ok net' /\
    shaping net' !! a =
      Some {| tc_bw := None; tc_delay := Some (delay_ms delay); tc_loss := Some loss |} /\
    shaping net' !! b =
      Some {| tc_bw := None; tc_delay := Some (delay_ms delay); tc_loss := Some loss |} /\
    forall bw', configureStaticNetworkConditions self delay bw' loss net = Ok net'.
Proof.
  intros Hnode Hin Hname Hlink.
  unfold configureStaticNetworkConditions. rewrite Hnode.
  eexists. split; [reflexivity|].
  destruct (fold_configure_sets self delay loss intfs net intf a b Hin Hname Hlink) as [Ha Hb].
  repeat split; auto.
Qed.

(** The call [configureStaticNetworkConditions(delay=20, bw=50, loss=0)]
    on the satellite link of the bent-pipe topology leaves both ends
    without the bandwidth of 50. *)
Lemma C8_bandwidth_not_applied_witness :
  exists net',
    configureStaticNetworkConditions scenario_thread 20 50 0 bent_pipe = Ok net' /\
    shaping net' !! "router-eth1" =
      Some {| tc_bw := None; tc_delay := Some "20ms"; tc_loss := Some 0 |} /\
    shaping net' !! "pop-eth0" =
      Some {| tc_bw := None; tc_delay := Some "20ms"; tc_loss := Some 0 |}.
Proof.
  destruct (C8_bandwidth_not_applied scenario_thread 20 50 0 bent_pipe
              [linked "router-eth0" "user-eth0" "router-eth0";
               linked "router-eth1" "router-eth1" "pop-eth0"]
              (linked "router-eth1" "router-eth1" "pop-eth0") "router-eth1" "pop-eth0")
    as (net' & Hcall & Ha & Hb & _).
  - vm_compute. reflexivity.
  - right. left. reflexivity.
  - reflexivity.
  - reflexivity.
  - exists net'. repeat split; assumption.
Defined.

(** ** C9: an unresolved device *)

(** C9. For every call of the configurator in which no interface of the
    node has a link and the name [dev], the call returns normally (it
    raises nothing) and the whole emulation state is unchanged. *)
Theorem C9_unresolved_device_silent_noop (self : NetworkConfigThread) (delay bw loss : Z)
    (net : Mininet) (intfs : list Intf) :
  nameToNode net !! host_name self = Some intfs ->
  resolves (dev self) intfs = false ->
  configureStaticNetworkConditions self delay bw loss net = Ok net.
Proof.
  intros Hnode Hdev. unfold configureStaticNetworkConditions. rewrite Hnode.
  now rewrite fold_configure_unresolved.
Qed.

Lemma C9_unresolved_device_witness :
  configureStaticNetworkConditions unresolved_thread 20 100 0 bent_pipe = Ok bent_pipe.
Proof.
  apply (C9_unresolved_device_silent_noop unresolved_thread 20 100 0 bent_pipe
           [linked "router-eth0" "user-eth0" "router-eth0";
            linked "router-eth1" "router-eth1" "pop-eth0"]).
  - vm_compute. reflexivity.
  - vm_compute. reflexivity.
Defined.

(** ** The selector on a well-formed trace *)

Lemma dict_getitem_half_number (T : trace) k :
  forallb (fun kv => PyFloat.is_number (snd kv / 2)%float) T = true ->
  PyFloat.is_number (dict_getitem T k / 2)%float = true.
Proof.
  induction T as [|[k' v'] T IH]; simpl; [intros _; vm_compute; reflexivity|].
  intros H. apply andb_prop in H as [Hv HT].
  destruct (PyFloat.same_key k' k); auto.
Qed.

Lemma closest_latency_total (T : trace) e :
  trace_ok T = true -> exists delay, closest_latency T e = Ok delay.
Proof.
  intros Hok. unfold closest_latency.
  destruct T as [|kv T]; [discriminate|].
  destruct (py_min_spec (distance e) (keys (kv :: T))) as (pre & k & post & _ & -> & _);
    [discriminate|].
  cbn [bind]. apply int_is_number. now apply (dict_getitem_half_number (kv :: T)).
Qed.

Lemma selector_total self now :
  trace_ok (latency self) = true ->
  get_closest_latency self now = Ok (selected self now).
Proof.
  intros Hok. unfold selected.
  destruct (closest_latency_total (latency self) (now - start_time self)%float Hok) as [d Hd].
  unfold get_closest_latency. now rewrite Hd.
Qed.

(** ** The scheduler loop *)

Arguments get_closest_latency : simpl never.
Arguments configureStaticNetworkConditions : simpl never.

Lemma run_app self N evs1 evs2 s :
  run self N (evs1 ++ evs2) s = run self N evs2 (run self N evs1 s).
Proof. apply fold_left_app. Qed.

Lemma ticks_app evs1 evs2 : ticks (evs1 ++ evs2) = (ticks evs1 + ticks evs2)%nat.
Proof.
  induction evs1 as [|[|now] evs1 IH]; simpl; auto.
Qed.

Lemma ticks_loops nows : ticks (loops nows) = 0%nat.
Proof. induction nows; simpl; auto. Qed.

Ltac loop_cases :=
  repeat match goal with
  | _ => progress cbn [pc update_event updates calls net selections] in *
  | H : _ /\ _ |- _ => destruct H
  | H : exists _, _ |- _ => destruct H
  | |- context [configureStaticNetworkConditions ?a ?b ?c ?d ?e] =>
      destruct (configureStaticNetworkConditions a b c d e)
  | |- context [get_closest_latency ?a ?b] => destruct (get_closest_latency a b)
  | |- context [(?a <? ?b)%nat] => destruct (Nat.ltb_spec a b)
  | |- context [if ?b then _ else _] => destruct b
  end.

(** Every step of either thread keeps the invariant. *)
Lemma step_inv self N t ev s :
  loop_inv N t s -> loop_inv N (t + ticks [ev]) (step self N ev s).
Proof.
  destruct s as [flag nt l u cs sels].
  destruct ev as [|now]; destruct l;
    unfold loop_inv, dynamic_calls, step, loop_step, select, apply_call,
      set_pc, set_event, set_updates;
    cbn [pc update_event updates calls net selections ticks];
    intros H; loop_cases; subst; cbn in *;
    repeat split; eauto; rewrite ?length_app in *; cbn in *; try lia.
Qed.

Lemma run_inv self N evs : forall t s,
  loop_inv N t s -> loop_inv N (t + ticks evs) (run self N evs s).
Proof.
  induction evs as [|ev evs IH]; intros t s H.
  - simpl. now rewrite Nat.add_0_r.
  - apply (step_inv self N t ev) in H. apply IH in H.
    replace (t + ticks (ev :: evs))%nat with (t + ticks [ev] + ticks evs)%nat; [exact H|].
    destruct ev; simpl; lia.
Qed.

Lemma initial_inv N net0 : loop_inv N 0 (initial_state net0).
Proof. split; simpl; auto. Qed.

(** Once the loop has returned, nothing but the event changes. *)
Lemma returned_final self N evs : forall s,
  pc s = Returned ->
  let s' := run self N evs s in
  pc s' = Returned /\ calls s' = calls s /\ net s' = net s /\ updates s' = updates s.
Proof.
  induction evs as [|ev evs IH]; intros s Hpc; [now simpl|].
  destruct (IH (step self N ev s)) as (H1 & H2 & H3 & H4).
  - destruct ev; simpl; [assumption|]. unfold loop_step. now rewrite Hpc.
  - simpl. rewrite H1, H2, H3, H4.
    destruct ev; simpl; auto. unfold loop_step. rewrite Hpc. auto.
Qed.

(** The configurator succeeds on a known node and leaves the nodes as
    they are. *)
Lemma configure_ok self delay bw loss nt :
  is_Some (nameToNode nt !! host_name self) ->
  exists nt', configureStaticNetworkConditions self delay bw loss nt = Ok nt' /\
              nameToNode nt' = nameToNode nt.
Proof.
  intros [intfs H]. unfold configureStaticNetworkConditions. rewrite H.
  eexists. split; [reflexivity|]. apply fold_configure_nodes.
Qed.

Lemma alive_step self N ev s :
  trace_ok (latency self) = true -> alive self s -> alive self (step self N ev s).
Proof.
  intros Hok [Hnode Hpc]. destruct s as [flag nt l u cs sels]. simpl in Hnode, Hpc.
  destruct ev as [|now]; [split; assumption|].
  destruct l; unfold alive, step, loop_step, select, apply_call, set_pc, set_event, set_updates;
    cbn [pc update_event updates calls net selections];
    try (split; assumption); try contradiction.
  - destruct (configure_ok self 100 100 0 nt Hnode) as (nt' & -> & Hn).
    cbn. now rewrite Hn.
  - destruct (u <? N)%nat; split; assumption.
  - destruct flag; split; assumption.
  - rewrite (selector_total self now Hok). split; assumption.
  - destruct (configure_ok self delay 100 0 nt Hnode) as (nt' & -> & Hn).
    cbn. now rewrite Hn.
Qed.

Lemma alive_run self N evs : forall s,
  trace_ok (latency self) = true -> alive self s -> alive self (run self N evs s).
Proof.
  induction evs as [|ev evs IH]; intros s Hok H; [assumption|].
  simpl. apply IH; [assumption|]. now apply alive_step.
Qed.

(** *** The steps of the loop, one line at a time *)

Arguments loop_step : simpl never.

Abbreviation mk_state := Build_state.

Lemma run_nil self N s : run self N [] s = s.
Proof. reflexivity. Qed.

Lemma run_cons self N ev evs s : run self N (ev :: evs) s = run self N evs (step self N ev s).
Proof. reflexivity. Qed.

Lemma step_tick self N f nt l u cs sels :
  step self N Tick (mk_state f nt l u cs sels) = mk_state true nt l u cs sels.
Proof. reflexivity. Qed.

Lemma step_loop self N now s : step self N (Loop now) s = loop_step self N now s.
Proof. reflexivity. Qed.

Lemma at_baseline self N now f nt nt' u cs sels :
  configureStaticNetworkConditions self 100 100 0 nt = Ok nt' ->
  loop_step self N now (mk_state f nt AtBaseline u cs sels)
  = mk_state f nt' AtWhile 0%nat (cs ++ [baseline_call]) sels.
Proof. intros H. unfold loop_step, apply_call. simpl. rewrite H. reflexivity. Qed.

Lemma at_while_lt self N now f nt u cs sels :
  (u < N)%nat ->
  loop_step self N now (mk_state f nt AtWhile u cs sels) = mk_state f nt AtWait u cs sels.
Proof.
  intros H. unfold loop_step. simpl. destruct (Nat.ltb_spec u N); [reflexivity | lia].
Qed.

Lemma at_while_ge self N now f nt u cs sels :
  (N <= u)%nat ->
  loop_step self N now (mk_state f nt AtWhile u cs sels) = mk_state f nt Returned u cs sels.
Proof.
  intros H. unfold loop_step. simpl. destruct (Nat.ltb_spec u N); [lia | reflexivity].
Qed.

Lemma at_wait_set self N now nt u cs sels :
  loop_step self N now (mk_state true nt AtWait u cs sels) = mk_state true nt AtSelect u cs sels.
Proof. reflexivity. Qed.

Lemma at_wait_unset self N now nt u cs sels :
  loop_step self N now (mk_state false nt AtWait u cs sels) = mk_state false nt AtWait u cs sels.
Proof. reflexivity. Qed.

Lemma at_select self N now f nt u cs sels :
  trace_ok (latency self) = true ->
  loop_step self N now (mk_state f nt AtSelect u cs sels)
  = mk_state f nt (AtApply (selected self now)) u cs (sels ++ [now]).
Proof.
  intros H. unfold loop_step, select. simpl. rewrite (selector_total self now H). reflexivity.
Qed.

Lemma at_apply self N now f nt nt' delay u cs sels :
  configureStaticNetworkConditions self delay 100 0 nt = Ok nt' ->
  loop_step self N now (mk_state f nt (AtApply delay) u cs sels)
  = mk_state f nt' AtClear u
      (cs ++ [{| call_delay := delay; call_bw := 100; call_loss := 0 |}]) sels.
Proof. intros H. unfold loop_step, apply_call. simpl. rewrite H. reflexivity. Qed.

Lemma at_clear self N now f nt u cs sels :
  loop_step self N now (mk_state f nt AtClear u cs sels) = mk_state false nt AtIncr u cs sels.
Proof. reflexivity. Qed.

Lemma at_incr self N now f nt u cs sels :
  loop_step self N now (mk_state f nt AtIncr u cs sels) = mk_state f nt AtWhile (S u) cs sels.
Proof. reflexivity. Qed.

Lemma at_returned self N now f nt u cs sels :
  loop_step self N now (mk_state f nt Returned u cs sels) = mk_state f nt Returned u cs sels.
Proof. reflexivity. Qed.

Lemma at_raised self N now f nt e u cs sels :
  loop_step self N now (mk_state f nt (Raised e) u cs sels) = mk_state f nt (Raised e) u cs sels.
Proof. reflexivity. Qed.

(** Runs a schedule on a state given by its fields, a step at a time. *)
Ltac run_schedule :=
  try unfold iteration; try unfold loops;
  cbn [map repeat app];
  repeat first
    [ rewrite run_nil
    | rewrite run_cons
    | rewrite step_tick
    | rewrite step_loop
    | rewrite at_wait_set
    | rewrite at_wait_unset
    | rewrite at_clear
    | rewrite at_incr
    | rewrite at_returned
    | rewrite at_raised
    | rewrite at_while_lt by lia
    | rewrite at_while_ge by lia
    | rewrite at_select by assumption
    | erewrite at_baseline by eassumption
    | erewrite at_apply by eassumption ].

(** One iteration from [update_event.wait()]: a tick and five steps make
    the dynamic call for the selector's value and count it. *)
Lemma iteration_from_wait self N now s :
  trace_ok (latency self) = true -> alive self s -> pc s = AtWait ->
  exists nt',
    configureStaticNetworkConditions self (selected self now) 100 0 (net s) = Ok nt' /\
    run self N (Tick :: repeat (Loop now) 5) s =
    {| update_event := false; net := nt'; pc := AtWhile; updates := S (updates s);
       calls := calls s ++ [dynamic_call self now];
       selections := selections s ++ [now] |}.
Proof.
  intros Hok [Hnode _] Hpc. destruct s as [flag nt l u cs sels].
  cbn [pc net updates calls selections] in *. subst l.
  destruct (configure_ok self (selected self now) 100 0 nt Hnode) as (nt' & Hc & _).
  exists nt'. split; [assumption|].
  run_schedule. reflexivity.
Qed.

(** One iteration from the test of the loop, while updates remain. *)
Lemma iteration_run self N now s :
  trace_ok (latency self) = true -> alive self s ->
  pc s = AtWhile -> (updates s < N)%nat ->
  exists nt',
    configureStaticNetworkConditions self (selected self now) 100 0 (net s) = Ok nt' /\
    run self N (iteration now) s =
    {| update_event := false; net := nt'; pc := AtWhile; updates := S (updates s);
       calls := calls s ++ [dynamic_call self now];
       selections := selections s ++ [now] |}.
Proof.
  intros Hok [Hnode _] Hpc Hlt. destruct s as [flag nt l u cs sels].
  cbn [pc net updates calls selections] in *. subst l.
  destruct (configure_ok self (selected self now) 100 0 nt Hnode) as (nt' & Hc & _).
  exists nt'. split; [assumption|].
  run_schedule. reflexivity.
Qed.

(** From the test of the loop, enough ticks bring the loop to its end. *)
Lemma from_while self N :
  trace_ok (latency self) = true ->
  forall k s, pc s = AtWhile -> alive self s -> (N - updates s = k)%nat ->
  exists evs, pc (run self N evs s) = Returned.
Proof.
  intros Hok. induction k as [|k IH]; intros s Hpc Halive Hk.
  - exists [Loop 0%float]. destruct s as [flag nt l u cs sels].
    cbn [pc updates] in *. subst l. run_schedule. reflexivity.
  - destruct (iteration_run self N 0%float s Hok Halive Hpc) as (nt' & Hc & Hrun); [lia|].
    destruct (IH (run self N (iteration 0%float) s)) as [evs Hevs].
    + rewrite Hrun. reflexivity.
    + apply alive_run; assumption.
    + rewrite Hrun. cbn [updates]. lia.
    + exists (iteration 0%float ++ evs). now rewrite run_app.
Qed.

(** A loop that is alive can always be brought to the test of the loop,
    unless it has returned. *)
Lemma reach_while self N s :
  trace_ok (latency self) = true -> alive self s ->
  pc s = Returned \/ exists evs, pc (run self N evs s) = AtWhile.
Proof.
  intros Hok [Hnode Hpc]. destruct s as [flag nt l u cs sels].
  cbn [pc net] in *.
  destruct (configure_ok self 100 100 0 nt Hnode) as (nt0 & Hc0 & _).
  destruct (configure_ok self (selected self 0%float) 100 0 nt Hnode) as (nt1 & Hc1 & _).
  destruct l as [ | | | |delay| | | |e]; auto; right.
  - exists [Loop 0%float]. run_schedule. reflexivity.
  - now exists [].
  - exists (Tick :: repeat (Loop 0%float) 5). run_schedule. reflexivity.
  - exists (repeat (Loop 0%float) 4). run_schedule. reflexivity.
  - destruct (configure_ok self delay 100 0 nt Hnode) as (nt2 & Hc2 & _).
    exists (repeat (Loop 0%float) 3). run_schedule. reflexivity.
  - exists (repeat (Loop 0%float) 2). run_schedule. reflexivity.
  - exists [Loop 0%float]. run_schedule. reflexivity.
  - destruct Hpc.
Qed.

(** As many iterations as there are clock readings, while updates remain. *)
Lemma iterations_run self N nows :
  trace_ok (latency self) = true ->
  forall s, alive self s -> pc s = AtWhile -> (updates s + length nows <= N)%nat ->
  let s' := run self N (flat_map iteration nows) s in
  alive self s' /\ pc s' = AtWhile /\ updates s' = (updates s + length nows)%nat /\
  calls s' = calls s ++ map (dynamic_call self) nows /\
  selections s' = selections s ++ nows.
Proof.
  intros Hok. induction nows as [|now nows IH]; intros s Halive Hpc Hle.
  - cbn. rewrite Nat.add_0_r, !app_nil_r. auto.
  - cbn [flat_map]. rewrite run_app. cbn zeta.
    cbn [length] in Hle.
    destruct (iteration_run self N now s Hok Halive Hpc) as (nt' & Hc & Hrun); [lia|].
    assert (Halive1 : alive self (run self N (iteration now) s))
      by (apply alive_run; assumption).
    rewrite Hrun in Halive1 |- *.
    match goal with |- context [run self N _ ?s1] =>
      destruct (IH s1) as (H1 & H2 & H3 & H4 & H5);
        [assumption | reflexivity | cbn [updates]; lia |]
    end.
    cbn [updates calls selections] in H3, H4, H5.
    split; [assumption|]. split; [assumption|]. split; [|split].
    + rewrite H3. cbn [length]. lia.
    + rewrite H4, <- app_assoc. reflexivity.
    + rewrite H5, <- app_assoc. reflexivity.
Qed.

(** The full schedule brings the loop from its start to its end, with one
    dynamic call per clock reading. *)
Lemma full_schedule_run self t0 nows net0 :
  trace_ok (latency self) = true ->
  is_Some (nameToNode net0 !! host_name self) ->
  let s := run self (length nows) (full_schedule t0 nows) (initial_state net0) in
  pc s = Returned /\ updates s = length nows /\
  calls s = baseline_call :: map (dynamic_call self) nows /\
  selections s = nows.
Proof.
  intros Hok Hnode. unfold full_schedule.
  change (Loop t0 :: flat_map iteration nows ++ [Loop t0])
    with ([Loop t0] ++ flat_map iteration nows ++ [Loop t0]).
  cbn zeta. rewrite !run_app.
  destruct (configure_ok self 100 100 0 net0 Hnode) as (nt' & Hc & Hn).
  assert (H0 : run self (length nows) [Loop t0] (initial_state net0) =
               {| update_event := false; net := nt'; pc := AtWhile; updates := 0;
                  calls := [baseline_call]; selections := [] |}).
  { unfold initial_state. run_schedule. reflexivity. }
  rewrite H0.
  destruct (iterations_run self (length nows) nows Hok
              {| update_event := false; net := nt'; pc := AtWhile; updates := 0;
                 calls := [baseline_call]; selections := [] |})
    as (H1 & H2 & H3 & H4 & H5).
  { split; [cbn [net]; rewrite Hn; exact Hnode | exact I]. }
  { reflexivity. }
  { cbn [updates]. lia. }
  cbn [updates calls selections] in H3, H4, H5.
  set (s1 := run self (length nows) (flat_map iteration nows) _) in *.
  destruct s1 as [flag nt l u cs sels]. cbn [pc updates calls selections] in *. subst.
  run_schedule. cbn [pc updates calls selections]. auto.
Qed.

(** ** C2: the bound on dynamic updates *)

(** C2. For [max_updates = N] (10 in the script) and every schedule of
    the loop and timer threads: the first configurator call is the
    baseline call, at most [N] dynamic calls follow it, and there are no
    more dynamic calls than ticks; once the loop has returned exactly [N]
    dynamic calls have been made and no further tick or step changes the
    calls or the network. On a known node and a well-formed trace the
    loop can always be brought to its end by further ticks, and a schedule
    of one baseline step and [N] ticked iterations ends with exactly the
    baseline call followed by the [N] dynamic calls. *)
Theorem C2_exactly_N_dynamic_calls (self : NetworkConfigThread) (N : nat) (net0 : Mininet) :
  (forall evs,
     let s := run self N evs (initial_state net0) in
     (calls s = [] \/
      exists dyn, calls s = baseline_call :: dyn /\
                  (length dyn <= N)%nat /\ (length dyn <= ticks evs)%nat) /\
     (pc s = Returned ->
      length (dynamic_calls s) = N /\
      forall evs', let s' := run self N evs' s in
                   pc s' = Returned /\ calls s' = calls s /\ net s' = net s)) /\
  (is_Some (nameToNode net0 !! host_name self) -> trace_ok (latency self) = true ->
   (forall evs, exists evs', pc (run self N (evs ++ evs') (initial_state net0)) = Returned) /\
   (forall t0 nows, length nows = N ->
      let s := run self N (full_schedule t0 nows) (initial_state net0) in
      pc s = Returned /\ calls s = baseline_call :: map (dynamic_call self) nows)).
Proof.
  split.
  - intros evs s.
    pose proof (run_inv self N evs 0 (initial_state net0) (initial_inv N net0)) as Hinv.
    fold s in Hinv. simpl in Hinv. split.
    + unfold loop_inv, dynamic_calls in Hinv.
      destruct (pc s); destruct Hinv as (H1 & H2);
        try (left; exact H1);
        right; destruct H1 as [dyn Hdyn]; exists dyn; rewrite Hdyn in H2; simpl in H2;
        repeat split; try assumption; destruct (update_event s); lia.
    + intros Hpc. unfold loop_inv in Hinv. rewrite Hpc in Hinv.
      destruct Hinv as (_ & Hd & _). split; [assumption|].
      intros evs'. destruct (returned_final self N evs' s Hpc) as (H1 & H2 & H3 & _). auto.
  - intros Hnode Hok. split.
    + intros evs. setoid_rewrite run_app.
      assert (Halive : alive self (run self N evs (initial_state net0))).
      { apply alive_run; [assumption|]. split; [assumption | exact I]. }
      destruct (reach_while self N _ Hok Halive) as [Hret | [evs1 H1]].
      * exists []. assumption.
      * destruct (from_while self N Hok _ _ H1
                    ltac:(apply alive_run; assumption) eq_refl) as [evs2 H2].
        exists (evs1 ++ evs2). now rewrite run_app.
    + intros t0 nows <-.
      destruct (full_schedule_run self t0 nows net0 Hok Hnode) as (H1 & _ & H2 & _). auto.
Qed.

(** The script's loop, [max_updates = 10], on the bent-pipe topology and
    the trace of the scenario, ticked once a second. *)
Lemma C2_exactly_N_dynamic_calls_witness :
  is_Some (nameToNode bent_pipe !! host_name scenario_thread) /\
  trace_ok (latency scenario_thread) = true /\
  let s := run scenario_thread max_updates_default
             (full_schedule 0 [1; 2; 3; 4; 5; 6; 7; 8; 9; 10]%float)
             (initial_state bent_pipe) in
  pc s = Returned /\
  calls s = baseline_call ::
            map (dynamic_call scenario_thread) [1; 2; 3; 4; 5; 6; 7; 8; 9; 10]%float.
Proof.
  assert (Hnode : is_Some (nameToNode bent_pipe !! host_name scenario_thread)).
  { eexists. vm_compute. reflexivity. }
  assert (Hok : trace_ok (latency scenario_thread) = true) by (vm_compute; reflexivity).
  split; [exact Hnode|]. split; [exact Hok|].
  destruct (C2_exactly_N_dynamic_calls scenario_thread max_updates_default bent_pipe)
    as [_ H].
  destruct (H Hnode Hok) as [_ Hfull].
  apply (Hfull 0%float [1; 2; 3; 4; 5; 6; 7; 8; 9; 10]%float). reflexivity.
Defined.

(** ** C5: coalescing of ticks *)

(** Setting an event that is set changes nothing. *)
Lemma tick_on_set_event self N s :
  update_event s = true -> step self N Tick s = s.
Proof. destruct s. simpl. intros ->. reflexivity. Qed.

(** A loop waiting on an unset event, or returned, makes no step. *)
Lemma loops_blocked self N nows s :
  (pc s = AtWait /\ update_event s = false) \/ pc s = Returned ->
  run self N (loops nows) s = s.
Proof.
  intros H. induction nows as [|now nows IH]; [reflexivity|].
  cbn [loops map]. rewrite run_cons, step_loop.
  replace (loop_step self N now s) with s; [exact IH|].
  unfold loop_step. destruct H as [[-> ->] | ->]; reflexivity.
Qed.

(** One tick, then steps of the loop only: at most one update, and
    exactly one once six steps have been made. *)
Lemma one_tick_one_update self N s nows :
  trace_ok (latency self) = true -> alive self s ->
  pc s = AtWhile \/ pc s = AtWait -> (updates s < N)%nat -> update_event s = false ->
  let r := run self N (Tick :: loops nows) s in
  (length (calls r) <= S (length (calls s)))%nat /\ (updates r <= S (updates s))%nat /\
  ((6 <= length nows)%nat ->
   length (calls r) = S (length (calls s)) /\ updates r = S (updates s) /\
   update_event r = false).
Proof.
  intros Hok [Hnode _] Hpc Hlt Hflag.
  destruct s as [flag nt l u cs sels].
  cbn [pc net updates calls update_event] in *. subst flag.
  assert (Hc : forall now, exists nt',
             configureStaticNetworkConditions self (selected self now) 100 0 nt = Ok nt').
  { intros now. destruct (configure_ok self (selected self now) 100 0 nt Hnode) as (nt' & H & _).
    eauto. }
  assert (Hblocked : forall nows f nt' l' u' cs' sels',
             (l' = AtWait /\ f = false) \/ l' = Returned ->
             run self N (map Loop nows) (mk_state f nt' l' u' cs' sels')
             = mk_state f nt' l' u' cs' sels').
  { intros. apply (loops_blocked self N). assumption. }
  destruct Hpc as [-> | ->].
  - destruct nows as [|n1 [|n2 [|n3 [|n4 [|n5 [|n6 nows]]]]]];
      try (destruct (Hc n3) as [nt' Hc3]);
      run_schedule; cbn [calls updates update_event length];
      rewrite ?length_app; cbn [length]; try (repeat split; lia).
    destruct nows as [|n7 nows]; run_schedule;
      cbn [calls updates update_event length];
      rewrite ?length_app; cbn [length]; try (repeat split; lia).
    destruct (Nat.ltb_spec (S u) N).
    + rewrite at_while_lt by assumption. rewrite Hblocked by auto.
      cbn [calls updates update_event]. rewrite length_app. cbn [length]. repeat split; lia.
    + rewrite at_while_ge by assumption. rewrite Hblocked by auto.
      cbn [calls updates update_event]. rewrite length_app. cbn [length]. repeat split; lia.
  - destruct nows as [|n1 [|n2 [|n3 [|n4 [|n5 nows]]]]];
      try (destruct (Hc n2) as [nt' Hc2]);
      run_schedule; cbn [calls updates update_event length];
      rewrite ?length_app; cbn [length]; try (repeat split; lia).
    destruct nows as [|n6 nows]; run_schedule;
      cbn [calls updates update_event length];
      rewrite ?length_app; cbn [length]; try (repeat split; lia).
    destruct (Nat.ltb_spec (S u) N).
    + rewrite at_while_lt by assumption. rewrite Hblocked by auto.
      cbn [calls updates update_event]. rewrite length_app. cbn [length]. repeat split; lia.
    + rewrite at_while_ge by assumption. rewrite Hblocked by auto.
      cbn [calls updates update_event]. rewrite length_app. cbn [length]. repeat split; lia.
Qed.

(** C5. The event holds at most one pending tick: a firing of the timer
    on a set event changes nothing. If, with the loop between two
    iterations and no tick pending, the timer fires, then fires again
    before the loop has cleared the event, the two firings act as one:
    however many steps the loop makes afterwards, it makes at most one
    configurator call and one increment of [updates] for them, and exactly
    one of each once it has made six steps, leaving no tick pending. *)
Theorem C5_ticks_coalesce (self : NetworkConfigThread) (N : nat) (s : state)
    (before after : list float) :
  trace_ok (latency self) = true -> alive self s ->
  pc s = AtWhile \/ pc s = AtWait -> (updates s < N)%nat -> update_event s = false ->
  update_event (run self N (Tick :: loops before) s) = true ->
  let two := run self N (Tick :: loops before ++ Tick :: loops after) s in
  (forall s', update_event s' = true -> step self N Tick s' = s') /\
  two = run self N (Tick :: loops before ++ loops after) s /\
  (length (calls two) <= S (length (calls s)))%nat /\
  (updates two <= S (updates s))%nat /\
  ((6 <= length before + length after)%nat ->
   length (calls two) = S (length (calls s)) /\ updates two = S (updates s) /\
   update_event two = false).
Proof.
  intros Hok Halive Hpc Hlt Hflag Hset two.
  assert (Htwo : two = run self N (Tick :: loops (before ++ after)) s).
  { unfold two, loops. rewrite map_app.
    change (Tick :: map Loop before ++ Tick :: map Loop after)
      with ((Tick :: map Loop before) ++ [Tick] ++ map Loop after).
    change (Tick :: map Loop before ++ map Loop after)
      with ((Tick :: map Loop before) ++ map Loop after).
    rewrite !run_app. f_equal.
    apply (tick_on_set_event self N). exact Hset. }
  split; [apply tick_on_set_event|].
  split; [rewrite Htwo; unfold loops; now rewrite map_app|].
  rewrite Htwo.
  destruct (one_tick_one_update self N s (before ++ after) Hok Halive Hpc Hlt Hflag)
    as (H1 & H2 & H3).
  rewrite length_app in H3. auto.
Qed.

(** The timer fires, the loop passes [wait()] and selects, the timer fires
    again, and the loop runs on. *)
Lemma C5_ticks_coalesce_witness :
  let two := run scenario_thread max_updates_default
               (Tick :: loops [1; 1]%float ++ Tick :: loops [1; 1; 1; 1; 1; 1]%float)
               waiting_state in
  length (calls two) = 2%nat /\ updates two = 1%nat /\ update_event two = false.
Proof.
  destruct (C5_ticks_coalesce scenario_thread max_updates_default waiting_state
              [1; 1]%float [1; 1; 1; 1; 1; 1]%float) as (_ & _ & _ & _ & H).
  - vm_compute. reflexivity.
  - split; [eexists; vm_compute; reflexivity | exact I].
  - right. reflexivity.
  - vm_compute. lia.
  - reflexivity.
  - vm_compute. reflexivity.
  - apply H. simpl. lia.
Defined.

(** ** C10: updates that change nothing still count *)

(** With a device that does not resolve, no step changes the network. *)
Lemma step_unresolved self N intfs ev s :
  nameToNode (net s) !! host_name self = Some intfs ->
  resolves (dev self) intfs = false ->
  net (step self N ev s) = net s.
Proof.
  intros Hnode Hdev.
  assert (Hc : forall delay bw loss,
             configureStaticNetworkConditions self delay bw loss (net s) = Ok (net s)).
  { intros. unfold configureStaticNetworkConditions. rewrite Hnode.
    now rewrite fold_configure_unresolved. }
  destruct ev as [|now]; [reflexivity|].
  destruct s as [flag nt l u cs sels]. cbn [net] in *.
  destruct l; unfold step, loop_step, select, apply_call, set_pc, set_event, set_updates;
    cbn [pc update_event updates calls net selections]; rewrite ?Hc; try reflexivity.
  - destruct (u <? N)%nat; reflexivity.
  - destruct flag; reflexivity.
  - destruct (get_closest_latency self now); reflexivity.
Qed.

Lemma run_unresolved self N intfs evs : forall s,
  nameToNode (net s) !! host_name self = Some intfs ->
  resolves (dev self) intfs = false ->
  net (run self N evs s) = net s.
Proof.
  induction evs as [|ev evs IH]; intros s Hnode Hdev; [reflexivity|].
  rewrite run_cons.
  pose proof (step_unresolved self N intfs ev s Hnode Hdev) as Hstep.
  rewrite IH; [assumption | now rewrite Hstep | assumption].
Qed.

(** C10. In every iteration of the loop, whatever the configurator call
    does to the network, the tick is consumed and [updates] goes up by
    one. In particular, when the name [dev] resolves to no interface of
    the node, no schedule ever changes the network, and yet the schedule
    of [N] ticked iterations ends the loop with [updates = N] after the
    baseline call and [N] dynamic calls. *)
Theorem C10_noop_updates_still_count (self : NetworkConfigThread) (N : nat)
    (net0 : Mininet) (intfs : list Intf) :
  trace_ok (latency self) = true ->
  nameToNode net0 !! host_name self = Some intfs ->
  (forall s now, alive self s -> pc s = AtWhile -> (updates s < N)%nat ->
     let s' := run self N (iteration now) s in
     pc s' = AtWhile /\ updates s' = S (updates s) /\ update_event s' = false /\
     calls s' = calls s ++ [dynamic_call self now]) /\
  (resolves (dev self) intfs = false ->
   (forall evs, net (run self N evs (initial_state net0)) = net0) /\
   (forall t0 nows, length nows = N ->
      let s := run self N (full_schedule t0 nows) (initial_state net0) in
      pc s = Returned /\ updates s = N /\ net s = net0 /\ length (calls s) = S N)).
Proof.
  intros Hok Hnode. split.
  - intros s now Halive Hpc Hlt.
    destruct (iteration_run self N now s Hok Halive Hpc Hlt) as (nt' & _ & Hrun).
    cbn zeta. rewrite Hrun. auto.
  - intros Hdev.
    assert (Hnet : forall evs, net (run self N evs (initial_state net0)) = net0).
    { intros evs. now apply (run_unresolved self N intfs evs (initial_state net0)). }
    split; [exact Hnet|].
    intros t0 nows <-.
    destruct (full_schedule_run self t0 nows net0 Hok) as (H1 & H2 & H3 & _);
      [exists intfs; exact Hnode|].
    cbn zeta. rewrite H3. cbn [length]. rewrite length_map. auto.
Qed.

(** The script's loop with a device name the router does not have. *)
Lemma C10_noop_updates_witness :
  let s := run unresolved_thread max_updates_default
             (full_schedule 0 [1; 2; 3; 4; 5; 6; 7; 8; 9; 10]%float)
             (initial_state bent_pipe) in
  pc s = Returned /\ updates s = max_updates_default /\ net s = bent_pipe /\
  length (calls s) = S max_updates_default.
Proof.
  destruct (C10_noop_updates_still_count unresolved_thread max_updates_default bent_pipe
              [linked "router-eth0" "user-eth0" "router-eth0";
               linked "router-eth1" "router-eth1" "pop-eth0"]) as [_ H].
  - vm_compute. reflexivity.
  - vm_compute. reflexivity.
  - destruct H as [_ H]; [vm_compute; reflexivity|].
    apply (H 0%float [1; 2; 3; 4; 5; 6; 7; 8; 9; 10]%float). reflexivity.
Defined.

(** ** C7: a trace with no data rows *)

(** The selector on an empty trace: [min] of an empty sequence raises. *)
Lemma selector_empty self now :
  latency self = [] -> get_closest_latency self now = Raise ValueError.
Proof. unfold get_closest_latency, closest_latency. intros ->. reflexivity. Qed.

(** With an empty trace the loop never gets past the selector. *)
Lemma step_empty_trace self N ev s :
  latency self = [] -> before_first_update s -> before_first_update (step self N ev s).
Proof.
  intros Hempty. destruct s as [flag nt l u cs sels]. unfold before_first_update.
  destruct ev as [|now]; [destruct l; auto|].
  destruct l; unfold step, loop_step, select, apply_call, set_pc, set_event, set_updates;
    cbn [pc update_event updates calls net selections]; auto; try contradiction.
  - intros ->. destruct (configureStaticNetworkConditions self 100 100 0 nt); reflexivity.
  - destruct (u <? N)%nat; auto.
  - destruct flag; auto.
  - rewrite (selector_empty self now Hempty). auto.
Qed.

Lemma run_empty_trace self N evs : forall s,
  latency self = [] -> before_first_update s -> before_first_update (run self N evs s).
Proof.
  induction evs as [|ev evs IH]; intros s Hempty H; [assumption|].
  rewrite run_cons. apply IH; [assumption|]. now apply step_empty_trace.
Qed.

(** C7, as the code has it. A trace file that has a header row and no
    data row loads without error, as the empty trace (only a file with no
    row at all fails, on the read of the header). The loop then applies
    the baseline and, at the first tick, invokes the selector on the empty
    trace: [min] raises [ValueError], the loop thread ends there, and no
    dynamic call is ever made. *)
Theorem C7_empty_trace_loads_then_selector_raises (py_float : string -> option float)
    (header : list string) (self : NetworkConfigThread) (N : nat) (net0 : Mininet) :
  load_latency_trace py_float [header] = Ok [] /\
  load_latency_trace py_float [] = Raise StopIteration /\
  (latency self = [] ->
   (forall now, get_closest_latency self now = Raise ValueError) /\
   (forall evs, (length (calls (run self N evs (initial_state net0))) <= 1)%nat) /\
   (is_Some (nameToNode net0 !! host_name self) -> (0 < N)%nat ->
    forall t1 t2 t3 t4,
      let s := run self N [Loop t1; Loop t2; Tick; Loop t3; Loop t4] (initial_state net0) in
      pc s = Raised ValueError /\ calls s = [baseline_call] /\ selections s = [t4])).
Proof.
  split; [reflexivity|]. split; [reflexivity|].
  intros Hempty. split; [intros; now apply selector_empty|]. split.
  - intros evs.
    pose proof (run_empty_trace self N evs (initial_state net0) Hempty eq_refl) as H.
    unfold before_first_update in H.
    destruct (pc (run self N evs (initial_state net0))); try rewrite H; simpl; try lia.
    all: destruct H.
  - intros Hnode HN t1 t2 t3 t4.
    destruct (configure_ok self 100 100 0 net0 Hnode) as (nt' & Hc & _).
    unfold initial_state. cbn zeta.
    run_schedule. unfold loop_step, select. cbn [pc selections].
    rewrite (selector_empty self t4 Hempty). auto.
Qed.

(** The script on a trace file with a header row only. *)
Lemma C7_empty_trace_witness :
  load_latency_trace decimal_float header_only_rows = Ok (latency empty_trace_thread) /\
  let s := run empty_trace_thread max_updates_default
             [Loop 0; Loop 0; Tick; Loop 1; Loop 1]%float (initial_state bent_pipe) in
  pc s = Raised ValueError /\ calls s = [baseline_call] /\ selections s = [1%float].
Proof.
  destruct (C7_empty_trace_loads_then_selector_raises decimal_float
              ["timestamp"; "relative"; "rtt"] empty_trace_thread max_updates_default
              bent_pipe) as (Hload & _ & H).
  split; [exact Hload|].
  destruct H as (_ & _ & H); [reflexivity|].
  apply H.
  - eexists. vm_compute. reflexivity.
  - vm_compute. lia.
Defined.

(** The claim as stated fails on the script: the load of a header-only
    file reports nothing, and the selector is invoked on the empty trace. *)
Lemma C7_counterexample :
  load_latency_trace decimal_float header_only_rows = Ok [] /\
  new_thread decimal_float "router" "router-eth1" header_only_rows 0%float
  = Ok empty_trace_thread /\
  let s := run empty_trace_thread max_updates_default
             [Loop 0; Loop 0; Tick; Loop 1; Loop 1]%float (initial_state bent_pipe) in
  selections s = [1%float] /\ latency empty_trace_thread = [] /\
  pc s = Raised ValueError.
Proof. vm_compute. repeat split. Qed.

(** ** The periodic trigger *)









(** ** C3: an invocation that is late *)



(** ** C4: an invocation that is on time *)



(** ** C6: the header and malformed rows *)

Lemma load_row_malformed py_float data row :
  malformed py_float row = true -> exists e, load_row py_float data row = Raise e.
Proof.
  unfold malformed, load_row, row_item, float_of_str. intros H.
  destruct (nth_error row 2) as [s2|]; cbn [bind]; [|eauto].
  destruct (py_float s2); cbn [bind]; [|eauto].
  destruct (nth_error row 1) as [s1|]; cbn [bind]; [|eauto].
  destruct (py_float s1); cbn [bind]; [discriminate | eauto].
Qed.

(** The loader stops at the first row it cannot store. *)
Lemma load_rows_malformed py_float before row after : forall data,
  malformed py_float row = true ->
  exists e, load_rows py_float data (before ++ row :: after) = Raise e.
Proof.
  induction before as [|r before IH]; intros data Hrow; cbn [app load_rows].
  - destruct (load_row_malformed py_float data row Hrow) as [e ->]. cbn [bind]. eauto.
  - destruct (load_row py_float data r) as [data'|e]; cbn [bind]; eauto.
Qed.

(** The converter goes on after a line it rejects. *)
Lemma read_lines_rejected {datetime : Type} strip split (strptime : string -> option datetime)
    py_float before line after : forall timestamps rtts,
  rejected strip split strptime py_float line = true ->
  read_lines datetime strip split strptime py_float (before ++ line :: after) timestamps rtts
  = read_lines datetime strip split strptime py_float (before ++ after) timestamps rtts.
Proof.
  induction before as [|l before IH]; intros timestamps rtts Hrej; cbn [app read_lines].
  - unfold rejected in Hrej.
    destruct (String.eqb (strip line) ""); [reflexivity|].
    destruct (parse_line datetime strip split strptime py_float line) as [[ts rtt]|e];
      [discriminate | reflexivity].
  - destruct (String.eqb (strip l) ""); [now apply IH|].
    destruct (parse_line datetime strip split strptime py_float l) as [[ts rtt]|e];
      now apply IH.
Qed.

(** C6. The loader drops the first row whatever it holds: the loaded trace
    does not depend on it. A later row whose field 1 or field 2 is missing
    or is not a number makes the whole load raise, whatever the rows
    around it. The converter of the ping text, on the contrary, passes
    over a line it cannot parse and reads the samples of the other lines
    as if the line were not there. *)
Theorem C6_header_dropped_malformed_row_fatal (py_float : string -> option float)
    (header : list string) (before : list (list string)) (row : list string)
    (after : list (list string)) :
  malformed py_float row = true ->
  (forall header' rows,
     load_latency_trace py_float (header :: rows)
     = load_latency_trace py_float (header' :: rows)) /\
  (exists e, load_latency_trace py_float (header :: before ++ row :: after) = Raise e) /\
  (forall (datetime : Type) strip split (strptime : string -> option datetime)
          first lines line lines',
     rejected strip split strptime py_float line = true ->
     convert_to_csv_samples datetime strip split strptime py_float
       (first :: lines ++ line :: lines')
     = convert_to_csv_samples datetime strip split strptime py_float
         (first :: lines ++ lines')).
Proof.
  intros Hrow. split; [reflexivity|]. split.
  - cbn [load_latency_trace]. now apply load_rows_malformed.
  - intros datetime strip split strptime first lines line lines' Hrej.
    unfold convert_to_csv_samples. cbn [tl].
    now apply read_lines_rejected.
Qed.

(** A trace file whose second data row has a latency that is not a
    number, and a ping text whose second data line has too many fields. *)
Lemma C6_header_dropped_witness :
  malformed decimal_float ["b"; "1.0"; "n/a"] = true /\
  (exists e, load_latency_trace decimal_float
               (["x"; "5.0"; "7.0"] ::
                [["a"; "0.0"; "100.0"]] ++ ["b"; "1.0"; "n/a"] :: [["c"; "2.0"; "50.0"]])
             = Raise e) /\
  load_latency_trace decimal_float [["x"; "5.0"; "7.0"]; ["a"; "0.0"; "100.0"]]
  = Ok [(0.0, 100.0)]%float /\
  convert_to_csv_samples string strip_blanks (fun s => split_commas s "")
    timestamp_text decimal_float
    ("timestamp,rtt" :: ["t1, 12.5"] ++ "x,y,z" :: ["t2, 13.5"])
  = (["t1"; "t2"], [12.5; 13.5]%float).
Proof.
  destruct (C6_header_dropped_malformed_row_fatal decimal_float ["x"; "5.0"; "7.0"]
              [["a"; "0.0"; "100.0"]] ["b"; "1.0"; "n/a"] [["c"; "2.0"; "50.0"]])
    as (_ & Hload & Hconv); [vm_compute; reflexivity|].
  split; [vm_compute; reflexivity|]. split; [exact Hload|].
  split; [vm_compute; reflexivity|].
  rewrite (Hconv string strip_blanks (fun s => split_commas s "") timestamp_text
             "timestamp,rtt" ["t1, 12.5"] "x,y,z" ["t2, 13.5"]); vm_compute; reflexivity.
Defined.

(** ** Further properties of the trace store *)

(** On a key that is a number, lookup compares with [==]. *)
Lemma same_key_number k' k :
  PrimFloat.is_nan k = false -> PyFloat.same_key k' k = PyFloat.eq k' k.
Proof.
  intros H. unfold PyFloat.same_key. rewrite H, andb_false_r. apply orb_false_r.
Qed.

Lemma dict_setitem_keys_ok d k v :
  forallb (fun k' => negb (PyFloat.eq k' k)) (keys d) = true ->
  dict_setitem d k v = d ++ [(k, v)].
Proof.
  induction d as [|[k1 v1] d IH]; cbn [keys map fst forallb dict_setitem app]; [reflexivity|].
  intros H. apply andb_prop in H as [H1 H2]. apply negb_true_iff in H1.
  rewrite H1. f_equal. now apply IH.
Qed.

Lemma keys_setitem d k v :
  keys (dict_setitem d k v) = keys d \/ keys (dict_setitem d k v) = keys d ++ [k].
Proof.
  induction d as [|[k1 v1] d IH]; cbn [keys map fst dict_setitem app]; [now right|].
  destruct (PyFloat.eq k1 k) eqn:E; [now left|].
  cbn [map fst]. fold (keys (dict_setitem d k v)). fold (keys d).
  destruct IH as [-> | ->]; auto.
Qed.

(** Storing keeps the dictionary a dictionary. *)
Lemma dict_setitem_ok d k v : dict_ok d = true -> dict_ok (dict_setitem d k v) = true.
Proof.
  induction d as [|[k1 v1] d IH]; cbn [dict_ok dict_setitem]; [reflexivity|].
  intros H. apply andb_prop in H as [H1 H2].
  destruct (PyFloat.eq k1 k) eqn:E; cbn [dict_ok].
  - now rewrite H1, H2.
  - rewrite (IH H2), andb_true_r.
    destruct (keys_setitem d k v) as [-> | ->]; [assumption|].
    rewrite forallb_app, H1. cbn [forallb]. now rewrite E.
Qed.

(** A stored value is the one found afterwards. *)
Lemma dict_getitem_setitem_same d k v :
  PrimFloat.is_nan k = false -> dict_getitem (dict_setitem d k v) k = v.
Proof.
  intros Hk. induction d as [|[k1 v1] d IH]; cbn [dict_setitem dict_getitem].
  - now rewrite FloatOrder.same_key_refl.
  - destruct (PyFloat.eq k1 k) eqn:E; cbn [dict_getitem];
      rewrite (same_key_number _ _ Hk), E; [reflexivity | exact IH].
Qed.

(** Storing under another key leaves a lookup as it was. *)
Lemma dict_getitem_setitem_other d k' v' k :
  PrimFloat.is_nan k = false -> PyFloat.eq k' k = false ->
  dict_getitem (dict_setitem d k' v') k = dict_getitem d k.
Proof.
  intros Hk Hne. induction d as [|[k1 v1] d IH]; cbn [dict_setitem dict_getitem].
  - now rewrite (same_key_number _ _ Hk), Hne.
  - destruct (PyFloat.eq k1 k') eqn:E; cbn [dict_getitem];
      rewrite (same_key_number _ _ Hk).
    + destruct (PyFloat.eq k1 k) eqn:E1; [|reflexivity].
      rewrite (FloatOrder.eq_trans_l _ _ _ E1 E) in Hne. discriminate.
    + destruct (PyFloat.eq k1 k); [reflexivity | exact IH].
Qed.

Lemma load_row_sample py_float data row data' :
  load_row py_float data row = Ok data' ->
  exists k v, sample_of py_float row = Some (k, v) /\ data' = dict_setitem data k v.
Proof.
  unfold load_row, sample_of, row_item, float_of_str.
  destruct (nth_error row 2) as [s2|]; cbn [bind]; [|discriminate].
  destruct (py_float s2) as [v|]; cbn [bind]; [|discriminate].
  destruct (nth_error row 1) as [s1|]; cbn [bind]; [|discriminate].
  destruct (py_float s1) as [k|]; cbn [bind]; [|discriminate].
  intros [= <-]. eauto.
Qed.

Lemma load_rows_ok py_float rows : forall data T,
  dict_ok data = true -> load_rows py_float data rows = Ok T -> dict_ok T = true.
Proof.
  induction rows as [|row rows IH]; intros data T Hok; cbn [load_rows].
  - now intros [= <-].
  - destruct (load_row py_float data row) as [data'|e] eqn:E; cbn [bind]; [|discriminate].
    destruct (load_row_sample _ _ _ _ E) as (k & v & _ & ->).
    apply IH. now apply dict_setitem_ok.
Qed.

Lemma load_rows_keeps py_float rows k v : forall data T,
  PrimFloat.is_nan k = false ->
  dict_getitem data k = v ->
  (forall row k' v', In row rows -> sample_of py_float row = Some (k', v') ->
                     PyFloat.eq k' k = false) ->
  load_rows py_float data rows = Ok T -> dict_getitem T k = v.
Proof.
  induction rows as [|row rows IH]; intros data T Hk Hget Hlater; cbn [load_rows].
  - now intros [= <-].
  - destruct (load_row py_float data row) as [data'|e] eqn:E; cbn [bind]; [|discriminate].
    destruct (load_row_sample _ _ _ _ E) as (k' & v' & Hs & ->).
    apply IH; [assumption| |intros; eapply Hlater; eauto; now right].
    rewrite dict_getitem_setitem_other; [assumption..|].
    eapply Hlater; [now left | eassumption].
Qed.

Lemma load_rows_app py_float before after : forall data T,
  load_rows py_float data (before ++ after) = Ok T ->
  exists data', load_rows py_float data before = Ok data' /\
                load_rows py_float data' after = Ok T.
Proof.
  induction before as [|row before IH]; intros data T; cbn [app load_rows]; [eauto|].
  destruct (load_row py_float data row) as [data'|e]; cbn [bind]; [apply IH | discriminate].
Qed.

(** X1. A trace that loads is a dictionary, and it maps the time of every
    row to the latency of the last row read with that time: later rows with
    an equal time overwrite earlier ones, and no other row changes it. *)
Theorem X1_loaded_trace_last_row_wins (py_float : string -> option float)
    (header : list string) (before : list (list string)) (row : list string)
    (after : list (list string)) (T : trace) (k v : float) :
  load_latency_trace py_float (header :: before ++ row :: after) = Ok T ->
  sample_of py_float row = Some (k, v) ->
  PrimFloat.is_nan k = false ->
  (forall row' k' v', In row' after -> sample_of py_float row' = Some (k', v') ->
                      PyFloat.eq k' k = false) ->
  dict_ok T = true /\ dict_getitem T k = v.
Proof.
  cbn [load_latency_trace]. intros Hload Hrow Hk Hlater. split.
  - now apply (load_rows_ok py_float (before ++ row :: after) [] T).
  - destruct (load_rows_app _ _ _ _ _ Hload) as (data1 & _ & Hrest).
    cbn [load_rows] in Hrest.
    destruct (load_row py_float data1 row) as [data2|e] eqn:E; cbn [bind] in Hrest;
      [|discriminate].
    destruct (load_row_sample _ _ _ _ E) as (k0 & v0 & Hs & ->).
    rewrite Hrow in Hs. injection Hs as <- <-.
    apply (load_rows_keeps py_float after k v (dict_setitem data1 k v) T); auto.
    now apply dict_getitem_setitem_same.
Qed.

(** Two rows with the time 1.0: the second one is the one kept. *)
Lemma X1_loaded_trace_witness :
  load_latency_trace decimal_float
    (["t"; "relative"; "rtt"] ::
     [["a"; "0.0"; "100.0"]; ["b"; "1.0"; "300.0"]] ++ ["c"; "1.0"; "50.0"] :: [])
  = Ok [(0.0, 100.0); (1.0, 50.0)]%float /\
  dict_getitem [(0.0, 100.0); (1.0, 50.0)]%float 1.0 = 50.0%float.
Proof.
  assert (H : load_latency_trace decimal_float
                (["t"; "relative"; "rtt"] ::
                 [["a"; "0.0"; "100.0"]; ["b"; "1.0"; "300.0"]] ++ ["c"; "1.0"; "50.0"] :: [])
              = Ok [(0.0, 100.0); (1.0, 50.0)]%float) by (vm_compute; reflexivity).
  split; [exact H|].
  apply (X1_loaded_trace_last_row_wins decimal_float _ _ _ _ _ 1.0%float 50.0%float H).
  - vm_compute. reflexivity.
  - vm_compute. reflexivity.
  - intros row' k' v' [].
Defined.

(** ** Further properties of the link configurator *)

Lemma intf_config_requested name delay loss nt :
  shaping nt !! name = Some (requested delay loss) ->
  intf_config name (delay_ms delay) loss nt = nt.
Proof.
  intros H. destruct nt as [nodes sh]. unfold intf_config. cbn [nameToNode shaping] in *.
  f_equal. now apply insert_id.
Qed.

Lemma fold_configure_settled self delay loss intfs : forall nt,
  (forall intf a b, In intf intfs -> intf_name intf = dev self ->
                    intf_link intf = Some (a, b) ->
                    shaping nt !! a = Some (requested delay loss) /\
                    shaping nt !! b = Some (requested delay loss)) ->
  fold_left (configure_intf self delay loss) intfs nt = nt.
Proof.
  induction intfs as [|i intfs IH]; intros nt H; cbn [fold_left]; [reflexivity|].
  assert (Hi : configure_intf self delay loss nt i = nt).
  { unfold configure_intf. destruct (intf_link i) as [[a b]|] eqn:El; [|reflexivity].
    destruct (String.eqb_spec (intf_name i) (dev self)) as [En|]; [|reflexivity].
    destruct (H i a b (or_introl eq_refl) En El) as [Ha Hb].
    rewrite (intf_config_requested a) by assumption.
    now apply intf_config_requested. }
  rewrite Hi. apply IH. intros intf a b Hin. apply H. now right.
Qed.

(** X2. The configurator is idempotent: a second call with the same
    arguments leaves the emulation state as the first call left it. *)
Theorem X2_configurator_idempotent (self : NetworkConfigThread) (delay bw loss : Z)
    (nt nt1 : Mininet) :
  configureStaticNetworkConditions self delay bw loss nt = Ok nt1 ->
  configureStaticNetworkConditions self delay bw loss nt1 = Ok nt1.
Proof.
  intros H. pose proof (configure_nodes _ _ _ _ _ _ H) as Hn.
  unfold configureStaticNetworkConditions in *. rewrite Hn.
  destruct (nameToNode nt !! host_name self) as [intfs|]; [|discriminate].
  injection H as <-. f_equal.
  apply fold_configure_settled. intros intf a b Hin Hname Hlink.
  now apply (fold_configure_sets self delay loss intfs nt intf a b).
Qed.

Lemma X2_configurator_idempotent_witness :
  exists nt1,
    configureStaticNetworkConditions scenario_thread 20 100 0 bent_pipe = Ok nt1 /\
    configureStaticNetworkConditions scenario_thread 20 100 0 nt1 = Ok nt1.
Proof.
  destruct (configure_ok scenario_thread 20 100 0 bent_pipe) as (nt1 & H & _).
  - eexists. vm_compute. reflexivity.
  - exists nt1. split; [exact H|].
    now apply (X2_configurator_idempotent scenario_thread 20 100 0 bent_pipe).
Defined.

(** ** When the trace store loads, and what it holds *)

Lemma malformed_sample py_float row :
  malformed py_float row = false <-> exists k v, sample_of py_float row = Some (k, v).
Proof.
  unfold malformed, sample_of.
  destruct (nth_error row 1) as [s1|]; destruct (nth_error row 2) as [s2|];
    try (split; [discriminate | intros (k & v & H); discriminate]).
  destruct (py_float s1) as [k|]; destruct (py_float s2) as [v|];
    try (split; [discriminate | intros (k' & v' & H); discriminate]).
  split; eauto.
Qed.

Lemma load_row_well_formed py_float data row k v :
  sample_of py_float row = Some (k, v) ->
  load_row py_float data row = Ok (dict_setitem data k v).
Proof.
  unfold sample_of, load_row, row_item, float_of_str.
  destruct (nth_error row 1) as [s1|]; destruct (nth_error row 2) as [s2|]; try discriminate.
  cbn [bind].
  destruct (py_float s1) as [k'|]; destruct (py_float s2) as [v'|]; try discriminate.
  intros [= -> ->]. reflexivity.
Qed.

Lemma load_rows_well_formed py_float rows : forall data,
  forallb (fun row => negb (malformed py_float row)) rows = true ->
  exists T, load_rows py_float data rows = Ok T.
Proof.
  induction rows as [|row rows IH]; intros data H; cbn [load_rows]; [eauto|].
  cbn [forallb] in H. apply andb_prop in H as [Hrow Hrows].
  apply negb_true_iff, malformed_sample in Hrow. destruct Hrow as (k & v & Hs).
  rewrite (load_row_well_formed _ data _ _ _ Hs). cbn [bind]. now apply IH.
Qed.

Lemma load_rows_succeeds py_float rows : forall data T,
  load_rows py_float data rows = Ok T ->
  forallb (fun row => negb (malformed py_float row)) rows = true.
Proof.
  induction rows as [|row rows IH]; intros data T; cbn [load_rows forallb]; [reflexivity|].
  destruct (load_row py_float data row) as [data'|e] eqn:E; cbn [bind]; [|discriminate].
  intros H. rewrite (IH _ _ H), andb_true_r.
  destruct (load_row_sample _ _ _ _ E) as (k & v & Hs & _).
  apply negb_true_iff, malformed_sample. eauto.
Qed.

(** X3. The load of a file that has a first row succeeds exactly when
    every later row has a field 1 and a field 2 that are numbers; the
    first row plays no part, and a file without any row fails on the read
    of the header. *)
Theorem X3_load_succeeds_iff_rows_well_formed (py_float : string -> option float)
    (header : list string) (rows : list (list string)) :
  ((exists T, load_latency_trace py_float (header :: rows) = Ok T) <->
   forallb (fun row => negb (malformed py_float row)) rows = true) /\
  load_latency_trace py_float [] = Raise StopIteration.
Proof.
  split; [|reflexivity]. cbn [load_latency_trace]. split.
  - intros [T H]. now apply (load_rows_succeeds py_float rows [] T).
  - apply load_rows_well_formed.
Qed.

Lemma dict_setitem_length d k v : (length (dict_setitem d k v) <= S (length d))%nat.
Proof.
  induction d as [|[k1 v1] d IH]; cbn [dict_setitem length]; [lia|].
  destruct (PyFloat.eq k1 k); cbn [length]; lia.
Qed.

Lemma dict_setitem_entries d k v k0 v0 :
  In (k0, v0) (dict_setitem d k v) ->
  In (k0, v0) d \/ (v0 = v /\ (k0 = k \/ PyFloat.eq k0 k = true)).
Proof.
  induction d as [|[k1 v1] d IH]; cbn [dict_setitem].
  - intros [[= <- <-] | []]. right. auto.
  - destruct (PyFloat.eq k1 k) eqn:E.
    + intros [[= <- <-] | H]; [right; auto | left; now right].
    + intros [[= <- <-] | H]; [left; now left|].
      destruct (IH H) as [H' | H']; [left; now right | now right].
Qed.

Lemma load_rows_entries py_float rows : forall data T,
  load_rows py_float data rows = Ok T ->
  (length T <= length data + length rows)%nat /\
  forall k v, In (k, v) T ->
    In (k, v) data \/
    exists row k', In row rows /\ sample_of py_float row = Some (k', v) /\
                   (k = k' \/ PyFloat.eq k k' = true).
Proof.
  induction rows as [|row rows IH]; intros data T; cbn [load_rows].
  - intros [= <-]. split; [cbn; lia | auto].
  - destruct (load_row py_float data row) as [data'|e] eqn:E; cbn [bind]; [|discriminate].
    destruct (load_row_sample _ _ _ _ E) as (k1 & v1 & Hs & ->).
    intros H. destruct (IH _ _ H) as [Hlen Hin]. split.
    + pose proof (dict_setitem_length data k1 v1). cbn [length]. lia.
    + intros k v Hkv. destruct (Hin k v Hkv) as [Hd | (r & k' & Hr & Hs' & Hk)].
      * destruct (dict_setitem_entries _ _ _ _ _ Hd) as [Hd' | [-> Hk]]; [now left|].
        right. exists row, k1. split; [now left|]. split; assumption.
      * right. exists r, k'. split; [now right|]. split; assumption.
Qed.

(** X4. A loaded trace holds nothing the file does not: it has at most
    one entry per data row, and the latency of every entry is the latency
    of a data row whose time is the key of the entry or is equal to it. *)
Theorem X4_loaded_trace_comes_from_rows (py_float : string -> option float)
    (header : list string) (rows : list (list string)) (T : trace) :
  load_latency_trace py_float (header :: rows) = Ok T ->
  (length T <= length rows)%nat /\
  forall k v, In (k, v) T ->
    exists row k', In row rows /\ sample_of py_float row = Some (k', v) /\
                   (k = k' \/ PyFloat.eq k k' = true).
Proof.
  cbn [load_latency_trace]. intros H.
  destruct (load_rows_entries py_float rows [] T H) as [Hlen Hin].
  split; [exact Hlen|].
  intros k v Hkv. destruct (Hin k v Hkv) as [[] | Hrow]. exact Hrow.
Qed.

Lemma X4_loaded_trace_witness :
  load_latency_trace decimal_float
    [["t"; "relative"; "rtt"]; ["a"; "0.0"; "100.0"]; ["b"; "1.0"; "300.0"];
     ["c"; "1.0"; "50.0"]]
  = Ok [(0.0, 100.0); (1.0, 50.0)]%float /\
  (length [(0.0, 100.0); (1.0, 50.0)]%float <= 3)%nat.
Proof.
  assert (H : load_latency_trace decimal_float
                [["t"; "relative"; "rtt"]; ["a"; "0.0"; "100.0"]; ["b"; "1.0"; "300.0"];
                 ["c"; "1.0"; "50.0"]]
              = Ok [(0.0, 100.0); (1.0, 50.0)]%float) by (vm_compute; reflexivity).
  split; [exact H|].
  apply (X4_loaded_trace_comes_from_rows decimal_float _ _ _ H).
Defined.

(** ** What a configurator call changes *)

Lemma configure_intf_shaping self delay loss nt intf x :
  shaping (configure_intf self delay loss nt intf) !! x
  = if existsb (String.eqb x) (link_ends (dev self) [intf])
    then Some (requested delay loss) else shaping nt !! x.
Proof.
  unfold configure_intf, link_ends. cbn [flat_map].
  destruct (intf_link intf) as [[a b]|]; [|reflexivity].
  destruct (String.eqb (intf_name intf) (dev self)); [|reflexivity].
  cbn [app existsb intf_config shaping]. unfold requested.
  rewrite !lookup_insert. rewrite orb_false_r.
  destruct (String.eqb_spec x a) as [Ha|Ha]; destruct (String.eqb_spec x b) as [Hb|Hb];
    repeat case_decide; cbn [orb]; congruence.
Qed.

Lemma link_ends_cons device intf intfs :
  link_ends device (intf :: intfs) = link_ends device [intf] ++ link_ends device intfs.
Proof. unfold link_ends. cbn [flat_map]. now rewrite app_nil_r. Qed.

Lemma fold_configure_shaping self delay loss intfs x : forall nt,
  shaping (fold_left (configure_intf self delay loss) intfs nt) !! x
  = if existsb (String.eqb x) (link_ends (dev self) intfs)
    then Some (requested delay loss) else shaping nt !! x.
Proof.
  induction intfs as [|i intfs IH]; intros nt; [reflexivity|].
  cbn [fold_left]. rewrite IH, configure_intf_shaping.
  rewrite (link_ends_cons (dev self) i intfs), existsb_app.
  destruct (existsb (String.eqb x) (link_ends (dev self) intfs));
    [now rewrite orb_true_r|].
  rewrite orb_false_r. reflexivity.
Qed.

(** X5. A configurator call on a known node changes the shaping of the
    two ends of the link of the device and of nothing else: every
    interface that is an end of such a link gets the requested delay and
    loss, every other interface keeps the shaping it had, and the nodes
    and their interfaces are as before. *)
Theorem X5_configurator_changes_link_ends_only (self : NetworkConfigThread)
    (delay bw loss : Z) (nt : Mininet) (intfs : list Intf) :
  nameToNode nt !! host_name self = Some intfs ->
  exists nt',
    configureStaticNetworkConditions self delay bw loss nt = Ok nt' /\
    nameToNode nt' = nameToNode nt /\
    forall x, shaping nt' !! x
              = if existsb (String.eqb x) (link_ends (dev self) intfs)
                then Some {| tc_bw := None; tc_delay := Some (delay_ms delay);
                             tc_loss := Some loss |}
                else shaping nt !! x.
Proof.
  intros Hnode. unfold configureStaticNetworkConditions. rewrite Hnode.
  eexists. split; [reflexivity|]. split; [apply fold_configure_nodes|].
  intros x. apply fold_configure_shaping.
Qed.

(** A call on the satellite link of the bent-pipe topology leaves the
    user's interface as it was. *)
Lemma X5_configurator_frame_witness :
  exists nt',
    configureStaticNetworkConditions scenario_thread 20 100 0 bent_pipe = Ok nt' /\
    shaping nt' !! "user-eth0" = shaping bent_pipe !! "user-eth0" /\
    shaping nt' !! "pop-eth0"
    = Some {| tc_bw := None; tc_delay := Some "20ms"; tc_loss := Some 0 |}.
Proof.
  destruct (X5_configurator_changes_link_ends_only scenario_thread 20 100 0 bent_pipe
              [linked "router-eth0" "user-eth0" "router-eth0";
               linked "router-eth1" "router-eth1" "pop-eth0"])
    as (nt' & Hc & _ & Hs); [vm_compute; reflexivity|].
  exists nt'. split; [exact Hc|]. split; rewrite Hs; vm_compute; reflexivity.
Defined.

(** ** Further properties of the scheduler loop *)

(** Once the loop has raised, nothing but the event changes. *)
Lemma raised_final self N e evs : forall s,
  pc s = Raised e ->
  let s' := run self N evs s in
  pc s' = Raised e /\ calls s' = calls s /\ net s' = net s.
Proof.
  induction evs as [|ev evs IH]; intros s Hpc; [now cbn|].
  assert (Hstep : pc (step self N ev s) = Raised e /\ calls (step self N ev s) = calls s /\
                  net (step self N ev s) = net s).
  { destruct ev; cbn [step]; [now cbn|]. unfold loop_step. rewrite Hpc. auto. }
  destruct Hstep as (H1 & H2 & H3).
  destruct (IH (step self N ev s) H1) as (H4 & H5 & H6).
  rewrite run_cons. cbn zeta in *. rewrite H4, H5, H6. auto.
Qed.

(** X6. When the name of the node is unknown to the network, the
    configurator raises [KeyError] and changes nothing; the loop thread
    ends on its baseline call, so that in every schedule the network stays
    as it was, no dynamic call is made, and the thread has raised as soon
    as it has made one step. *)
Theorem X6_unknown_node_ends_thread_at_baseline (self : NetworkConfigThread) (N : nat)
    (net0 : Mininet) :
  nameToNode net0 !! host_name self = None ->
  (forall delay bw loss,
     configureStaticNetworkConditions self delay bw loss net0 = Raise KeyError) /\
  (forall evs, let s := run self N evs (initial_state net0) in
     net s = net0 /\
     ((pc s = AtBaseline /\ calls s = []) \/
      (pc s = Raised KeyError /\ calls s = [baseline_call]))) /\
  (forall evs1 now evs2,
     pc (run self N (evs1 ++ Loop now :: evs2) (initial_state net0)) = Raised KeyError).
Proof.
  intros Hnode.
  assert (Hc : forall delay bw loss,
             configureStaticNetworkConditions self delay bw loss net0 = Raise KeyError).
  { intros. unfold configureStaticNetworkConditions. now rewrite Hnode. }
  assert (Hinv : forall evs, let s := run self N evs (initial_state net0) in
            net s = net0 /\
            ((pc s = AtBaseline /\ calls s = []) \/
             (pc s = Raised KeyError /\ calls s = [baseline_call]))).
  { intros evs. induction evs as [|ev evs IH] using rev_ind; [cbn; auto|].
    rewrite run_app. cbn zeta in *.
    set (s := run self N evs (initial_state net0)) in *.
    destruct IH as [Hnet Hpc]. rewrite run_cons, run_nil.
    destruct ev as [|now]; [destruct s; cbn in *; auto|].
    destruct s as [f nt l u cs sels]. cbn [net pc calls step] in *. subst nt.
    destruct Hpc as [[-> ->] | [-> ->]].
    - unfold loop_step, apply_call, set_updates. cbn [pc net calls update_event updates].
      rewrite Hc. cbn. auto.
    - rewrite at_raised. cbn. auto. }
  split; [exact Hc|]. split; [exact Hinv|].
  intros evs1 now evs2. rewrite run_app, run_cons.
  destruct (Hinv evs1) as [Hnet Hpc].
  set (s := run self N evs1 (initial_state net0)) in *.
  assert (H1 : pc (step self N (Loop now) s) = Raised KeyError).
  { destruct s as [f nt l u cs sels]. cbn [net pc calls step] in *. subst nt.
    destruct Hpc as [[-> ->] | [-> ->]].
    - unfold loop_step, apply_call, set_updates. cbn [pc net calls update_event updates].
      rewrite Hc. reflexivity.
    - reflexivity. }
  now destruct (raised_final self N KeyError evs2 _ H1).
Qed.

(** The thread set on a node the bent-pipe topology does not have. *)
Lemma X6_unknown_node_witness :
  nameToNode bent_pipe !! host_name unknown_node_thread = None /\
  pc (run unknown_node_thread max_updates_default ([Tick] ++ Loop 1 :: [Tick; Loop 2])
        (initial_state bent_pipe)) = Raised KeyError.
Proof.
  assert (H : nameToNode bent_pipe !! host_name unknown_node_thread = None)
    by (vm_compute; reflexivity).
  split; [exact H|].
  destruct (X6_unknown_node_ends_thread_at_baseline unknown_node_thread
              max_updates_default bent_pipe H) as (_ & _ & Hrun).
  apply Hrun.
Defined.

(** X7. Without a tick the loop makes its baseline call and then waits:
    whatever the number of its steps, from the second one on it stands at
    [update_event.wait()], it has selected nothing and made no dynamic
    call, and it neither returns nor raises. *)
Theorem X7_no_tick_no_update (self : NetworkConfigThread) (N : nat) (net0 : Mininet)
    (nows : list float) :
  is_Some (nameToNode net0 !! host_name self) -> (0 < N)%nat -> (2 <= length nows)%nat ->
  let s := run self N (loops nows) (initial_state net0) in
  pc s = AtWait /\ update_event s = false /\ calls s = [baseline_call] /\
  updates s = 0%nat /\ selections s = [].
Proof.
  intros Hnode HN Hlen.
  destruct (configure_ok self 100 100 0 net0 Hnode) as (nt' & Hc & _).
  destruct nows as [|n1 [|n2 nows]]; cbn [length] in Hlen; try lia.
  unfold initial_state. cbn zeta. run_schedule.
  change (map Loop nows) with (loops nows).
  rewrite loops_blocked by (cbn; auto). cbn. auto.
Qed.

Lemma X7_no_tick_witness :
  let s := run scenario_thread max_updates_default (loops [1; 2; 3; 4; 5]%float)
             (initial_state bent_pipe) in
  pc s = AtWait /\ update_event s = false /\ calls s = [baseline_call] /\
  updates s = 0%nat /\ selections s = [].
Proof.
  apply (X7_no_tick_no_update scenario_thread max_updates_default bent_pipe
           [1; 2; 3; 4; 5]%float).
  - eexists. vm_compute. reflexivity.
  - vm_compute. lia.
  - cbn. lia.
Defined.

(** The network after the iterations of the loop is the one the dynamic
    calls build. *)
Lemma iterations_net self N nows :
  trace_ok (latency self) = true ->
  forall s, alive self s -> pc s = AtWhile -> (updates s + length nows <= N)%nat ->
  net (run self N (flat_map iteration nows) s) = net_after self nows (net s).
Proof.
  intros Hok. induction nows as [|now nows IH]; intros s Halive Hpc Hle; [reflexivity|].
  cbn [flat_map net_after length] in *. rewrite run_app.
  destruct (iteration_run self N now s Hok Halive Hpc) as (nt' & Hc & Hrun); [lia|].
  assert (Halive1 : alive self (run self N (iteration now) s))
    by (apply alive_run; assumption).
  rewrite Hc. rewrite Hrun in Halive1 |- *.
  match goal with |- context [run self N _ ?s1] =>
    rewrite (IH s1); [reflexivity | assumption | reflexivity | cbn [updates]; lia]
  end.
Qed.

(** The shaping the dynamic calls leave: the request of the last call on
    the ends of the link, the shaping of before everywhere else. *)
Lemma net_after_shaping self intfs nows last x : forall nt,
  nameToNode nt !! host_name self = Some intfs ->
  shaping (net_after self (nows ++ [last]) nt) !! x
  = if existsb (String.eqb x) (link_ends (dev self) intfs)
    then Some (requested (selected self last) 0)
    else shaping nt !! x.
Proof.
  induction nows as [|now nows IH]; intros nt Hnode; cbn [app net_after];
    unfold configureStaticNetworkConditions; rewrite Hnode.
  - apply fold_configure_shaping.
  - rewrite IH by (now rewrite fold_configure_nodes).
    rewrite fold_configure_shaping.
    destruct (existsb (String.eqb x) (link_ends (dev self) intfs)); reflexivity.
Qed.

(** X8. When the loop has run to its end, the link carries the last
    update: both ends of the link of the device have the delay selected
    at the last tick and a loss of 0, every other interface has the
    shaping it had before the thread started, and no later tick or step
    changes the network. *)
Theorem X8_last_update_stays_in_effect (self : NetworkConfigThread) (net0 : Mininet)
    (intfs : list Intf) (t0 : float) (nows : list float) (last : float) :
  trace_ok (latency self) = true ->
  nameToNode net0 !! host_name self = Some intfs ->
  let N := length (nows ++ [last]) in
  let s := run self N (full_schedule t0 (nows ++ [last])) (initial_state net0) in
  pc s = Returned /\
  (forall x, shaping (net s) !! x
             = if existsb (String.eqb x) (link_ends (dev self) intfs)
               then Some {| tc_bw := None; tc_delay := Some (delay_ms (selected self last));
                            tc_loss := Some 0 |}
               else shaping net0 !! x) /\
  (forall evs, net (run self N evs s) = net s).
Proof.
  intros Hok Hnode N s.
  assert (Hsome : is_Some (nameToNode net0 !! host_name self)) by (now exists intfs).
  destruct (full_schedule_run self t0 (nows ++ [last]) net0 Hok Hsome) as (Hpc & _).
  fold N in Hpc. fold s in Hpc.
  split; [exact Hpc|]. split.
  - intros x. unfold s, full_schedule.
    change (Loop t0 :: flat_map iteration (nows ++ [last]) ++ [Loop t0])
      with ([Loop t0] ++ flat_map iteration (nows ++ [last]) ++ [Loop t0]).
    rewrite !run_app.
    destruct (configure_ok self 100 100 0 net0 Hsome) as (nt0 & Hc & Hn).
    assert (H0 : run self N [Loop t0] (initial_state net0) =
                 {| update_event := false; net := nt0; pc := AtWhile; updates := 0;
                    calls := [baseline_call]; selections := [] |}).
    { unfold initial_state. run_schedule. reflexivity. }
    rewrite H0.
    set (s0 := {| update_event := false; net := nt0; pc := AtWhile; updates := 0;
                  calls := [baseline_call]; selections := [] |}).
    assert (Halive0 : alive self s0).
    { split; [cbn [net s0]; rewrite Hn; exact Hsome | exact I]. }
    pose proof (iterations_net self N (nows ++ [last]) Hok s0 Halive0 eq_refl
                  ltac:(cbn [updates s0]; unfold N; lia)) as Hnet.
    destruct (iterations_run self N (nows ++ [last]) Hok s0 Halive0 eq_refl
                ltac:(cbn [updates s0]; unfold N; lia)) as (_ & Hpc1 & Hu1 & _).
    set (s1 := run self N (flat_map iteration (nows ++ [last])) s0) in *.
    assert (Hlast : net (run self N [Loop t0] s1) = net s1).
    { destruct s1 as [f nt l u cs sels]. cbn [pc net updates] in *. subst l.
      rewrite run_cons, run_nil, step_loop.
      destruct (Nat.ltb_spec u N);
        [rewrite at_while_lt by assumption | rewrite at_while_ge by assumption];
        reflexivity. }
    rewrite Hlast, Hnet. cbn [net s0].
    rewrite (net_after_shaping self intfs nows last x nt0) by (now rewrite Hn).
    destruct (existsb (String.eqb x) (link_ends (dev self) intfs)) eqn:E; [reflexivity|].
    unfold configureStaticNetworkConditions in Hc. rewrite Hnode in Hc.
    injection Hc as <-. now rewrite fold_configure_shaping, E.
  - intros evs. now destruct (returned_final self N evs s Hpc) as (_ & _ & H & _).
Qed.

(** The script's loop, ten ticks a second apart: the satellite link ends
    with the delay of the last sample, the user's link is untouched. *)
Lemma X8_last_update_witness :
  let s := run scenario_thread max_updates_default
             (full_schedule 0 ([1; 2; 3; 4; 5; 6; 7; 8; 9] ++ [10])%float)
             (initial_state bent_pipe) in
  pc s = Returned /\
  shaping (net s) !! "router-eth1"
  = Some {| tc_bw := None; tc_delay := Some "25ms"; tc_loss := Some 0 |} /\
  shaping (net s) !! "user-eth0" = shaping bent_pipe !! "user-eth0".
Proof.
  destruct (X8_last_update_stays_in_effect scenario_thread bent_pipe
              [linked "router-eth0" "user-eth0" "router-eth0";
               linked "router-eth1" "router-eth1" "pop-eth0"]
              0%float [1; 2; 3; 4; 5; 6; 7; 8; 9]%float 10%float)
    as (Hpc & Hs & _).
  - vm_compute. reflexivity.
  - vm_compute. reflexivity.
  - split; [exact Hpc|]. split.
    + etransitivity; [apply Hs|]. vm_compute. reflexivity.
    + etransitivity; [apply Hs|]. vm_compute. reflexivity.
Defined.

(** ** The timer and the loop together *)

Lemma thread_run_cons self N ev evs st :
  thread_run self N (ev :: evs) st = thread_run self N evs (thread_step self N ev st).
Proof. reflexivity. Qed.

(** The loop sees of the timer what the ticks of its on-time calls are,
    and the timer keeps its step. *)
Lemma thread_run_loop self N evs : forall st,
  let st' := thread_run self N evs st in
  loop_state st' = run self N (loop_events (entry_start st) (entry_step st) evs)
                     (loop_state st) /\
  entry_step st' = entry_step st.
Proof.
  induction evs as [|ev evs IH]; intros st; [now cbn|].
  rewrite thread_run_cons. cbn zeta.
  destruct (IH (thread_step self N ev st)) as [Hloop Hstep].
  rewrite Hloop, Hstep. destruct ev as [clock1 clock2|now]; cbn [thread_step loop_events].
  - unfold update_periodically.
    destruct (PyFloat.gt (sleep_time (entry_start st) (entry_step st) clock1) 0);
      cbn [signals existsb entered orb loop_state entry_start entry_step]; auto.
  - cbn [loop_state entry_start entry_step]. auto.
Qed.

Lemma ticks_loop_events evs : forall start step,
  ticks (loop_events start step evs) = on_time_calls start step evs.
Proof.
  induction evs as [|[clock1 clock2|now] evs IH]; intros start step;
    cbn [loop_events on_time_calls ticks]; auto.
  destruct (PyFloat.gt (sleep_time start step clock1) 0); cbn [ticks]; auto.
Qed.

(** X9. In the thread as [run] starts it, whatever the order of the timer
    calls and of the steps of the loop and whatever the clock reads, the
    loop makes no more dynamic calls than there were timer calls that
    found [sleep_time > 0] (a late timer call never leads to an update),
    and never more than [max_updates]; the timer keeps the update interval
    as its step throughout. *)
Theorem X9_updates_need_on_time_timer_calls (self : NetworkConfigThread) (N : nat)
    (net0 : Mininet) (evs : list thread_event) :
  let st := thread_run self N evs (thread_start self net0) in
  (length (dynamic_calls (loop_state st))
   <= on_time_calls (start_time self) latency_update_interval evs)%nat /\
  (length (dynamic_calls (loop_state st)) <= N)%nat /\
  entry_step st = latency_update_interval.
Proof.
  intros st.
  destruct (thread_run_loop self N evs (thread_start self net0)) as [Hloop Hstep].
  fold st in Hloop, Hstep. cbn [thread_start loop_state entry_start entry_step] in Hloop, Hstep.
  split; [|split; [|exact Hstep]].
  - pose proof (run_inv self N
                  (loop_events (start_time self) latency_update_interval evs) 0
                  (initial_state net0) (initial_inv N net0)) as Hinv.
    rewrite <- Hloop, ticks_loop_events in Hinv. cbn [Nat.add] in Hinv.
    unfold loop_inv in Hinv.
    destruct (pc (loop_state st)); destruct Hinv as (H1 & H2);
      try (unfold dynamic_calls; rewrite H1; cbn; lia);
      destruct (update_event (loop_state st)); lia.
  - pose proof (run_inv self N
                  (loop_events (start_time self) latency_update_interval evs) 0
                  (initial_state net0) (initial_inv N net0)) as Hinv.
    rewrite <- Hloop in Hinv. unfold loop_inv in Hinv.
    destruct (pc (loop_state st)); destruct Hinv as (H1 & H2);
      try (unfold dynamic_calls; rewrite H1; cbn; lia); lia.
Qed.

(** ** The converter: what it reads and what it writes *)

Section ConvertProperties.

Context {datetime : Type} (strip : string -> string) (split : string -> list string)
  (strptime : string -> option datetime) (py_float : string -> option float)
  (strftime : datetime -> string) (seconds_between : datetime -> datetime -> float)
  (format_3f : float -> string).

Lemma read_lines_accepted lines : forall timestamps rtts,
  read_lines datetime strip split strptime py_float lines timestamps rtts
  = (timestamps ++ map fst (accepted_samples datetime strip split strptime py_float lines),
     rtts ++ map snd (accepted_samples datetime strip split strptime py_float lines)).
Proof.
  induction lines as [|line lines IH]; intros timestamps rtts;
    cbn [read_lines accepted_samples flat_map].
  - now rewrite !app_nil_r.
  - fold (accepted_samples datetime strip split strptime py_float lines).
    destruct (String.eqb (strip line) ""); [apply IH|].
    destruct (parse_line datetime strip split strptime py_float line) as [[ts rtt]|e];
      [|apply IH].
    rewrite IH. cbn [app map fst snd]. now rewrite <- !app_assoc.
Qed.

Lemma combine_fst_snd {A B} (l : list (A * B)) : combine (map fst l) (map snd l) = l.
Proof. induction l as [|[a b] l IH]; cbn; [reflexivity | now rewrite IH]. Qed.

Lemma samples_accepted lines :
  convert_to_csv_samples datetime strip split strptime py_float lines
  = (map fst (accepted_samples datetime strip split strptime py_float (tl lines)),
     map snd (accepted_samples datetime strip split strptime py_float (tl lines))).
Proof. unfold convert_to_csv_samples. now rewrite read_lines_accepted. Qed.

(** X10. The reading loop keeps its two lists in step: after the first
    line is skipped, the time stamps and the round-trip times it collects
    are those of the accepted lines (neither blank nor raising), in the
    order of the lines, one of each per accepted line, so that [zip]
    pairs every time stamp with the round-trip time of its own line. *)
Theorem X10_reading_loop_keeps_lists_in_step (lines : list string) :
  let acc := accepted_samples datetime strip split strptime py_float (tl lines) in
  let timestamps := fst (convert_to_csv_samples datetime strip split strptime py_float lines) in
  let rtts := snd (convert_to_csv_samples datetime strip split strptime py_float lines) in
  timestamps = map fst acc /\ rtts = map snd acc /\
  length timestamps = length rtts /\ combine timestamps rtts = acc.
Proof.
  rewrite samples_accepted. cbn [fst snd].
  repeat split; [now rewrite !length_map | apply combine_fst_snd].
Qed.

(** X11. The converter writes nothing when no line after the first is
    accepted; otherwise it writes one row per accepted line, in the order
    of the lines, with the round-trip time of the line, and every relative
    time is counted from the time stamp of the first accepted line. *)
Theorem X11_output_rows_of_accepted_lines (lines : list string) :
  match accepted_samples datetime strip split strptime py_float (tl lines) with
  | [] =>
      convert_to_csv datetime strip split strptime py_float
        strftime seconds_between format_3f lines = None
  | (base_time, rtt) :: rest =>
      exists rows,
        convert_to_csv datetime strip split strptime py_float
          strftime seconds_between format_3f lines = Some rows /\
        rows = map (output_row datetime strftime seconds_between format_3f base_time)
                 ((base_time, rtt) :: rest) /\
        map row_rtt rows = rtt :: map snd rest /\
        length rows = S (length rest)
  end.
Proof.
  unfold convert_to_csv. rewrite samples_accepted.
  destruct (accepted_samples datetime strip split strptime py_float (tl lines))
    as [|[base_time rtt] rest] eqn:E; [reflexivity|].
  rewrite combine_fst_snd. cbn [map fst].
  eexists. split; [reflexivity|].
  split; [reflexivity|]. split.
  - cbn [map output_row row_rtt snd]. f_equal. rewrite map_map. reflexivity.
  - cbn [map length]. now rewrite length_map.
Qed.

End ConvertProperties.

(** ** Round-trip times from a capture *)

Arguments has_ip {time}.
Arguments icmp {time}.
Arguments pkt_time {time}.
Arguments echo_id {time}.
Arguments echo_seq {time}.
Arguments echo_time {time}.
Arguments extract {time}.
Arguments same_echo {time}.
Arguments find_reply {time}.
Arguments is_echo {time}.

Section IcmpProperties.

Context {time millis : Type} (rtt_ms : time -> time -> millis)
  (positive_ms below_10000 : millis -> bool).

Local Abbreviation matched := (match_rtts time millis rtt_ms positive_ms below_10000).
Local Abbreviation valid := (valid_rtt millis positive_ms below_10000).
Local Abbreviation samples := (rtt_samples time millis rtt_ms positive_ms below_10000).

(** The reply the inner loop finds is the first one that matches, and it
    is the only entry the loop deletes. *)
Lemma find_reply_some (req : echo time) replies rep rest :
  find_reply req replies = Some (rep, rest) ->
  exists l1 l2, replies = l1 ++ rep :: l2 /\ rest = l1 ++ l2 /\
                same_echo req rep = true /\
                Forall (fun r => same_echo req r = false) l1.
Proof.
  revert rep rest. induction replies as [|r replies IH]; intros rep rest; cbn [find_reply];
    [discriminate|].
  destruct (same_echo req r) eqn:E.
  - intros [= <- <-]. exists [], replies. repeat split; auto.
  - destruct (find_reply req replies) as [[found rest']|]; [|discriminate].
    intros [= <- <-]. destruct (IH found rest' eq_refl) as (l1 & l2 & -> & -> & Hm & Hl1).
    exists (r :: l1), l2. repeat split; auto.
Qed.

Lemma find_reply_none (req : echo time) replies :
  find_reply req replies = None -> Forall (fun r => same_echo req r = false) replies.
Proof.
  induction replies as [|r replies IH]; cbn [find_reply]; [constructor|].
  destruct (same_echo req r) eqn:E; [discriminate|].
  destruct (find_reply req replies) as [[found rest']|]; [discriminate|].
  intros _. constructor; auto.
Qed.

Lemma match_rtts_sound requests : forall replies t x,
  In (t, x) (fst (matched requests replies)) ->
  exists req rep, In req requests /\ In rep replies /\ same_echo req rep = true /\
                  t = echo_time req /\ x = rtt_ms (echo_time rep) (echo_time req) /\
                  valid x = true.
Proof.
  induction requests as [|req requests IH]; intros replies t x; cbn [match_rtts];
    [intros []|].
  destruct (find_reply req replies) as [[rep rest]|] eqn:Ef.
  - destruct (find_reply_some _ _ _ _ Ef) as (l1 & l2 & -> & -> & Hm & _).
    destruct (matched requests (l1 ++ l2)) as [rtts left] eqn:Em. cbn [fst].
    assert (Hrest : In (t, x) rtts ->
              exists req0 rep0, In req0 (req :: requests) /\ In rep0 (l1 ++ rep :: l2) /\
                same_echo req0 rep0 = true /\ t = echo_time req0 /\
                x = rtt_ms (echo_time rep0) (echo_time req0) /\ valid x = true).
    { intros Hin. destruct (IH (l1 ++ l2) t x) as (req0 & rep0 & H1 & H2 & H3);
        [now rewrite Em|].
      exists req0, rep0. split; [now right|]. split; [|exact H3].
      apply in_app_or in H2. apply in_or_app. destruct H2; [now left | right; now right]. }
    destruct (valid (rtt_ms (echo_time rep) (echo_time req))) eqn:Ev; [|exact Hrest].
    intros [[= <- <-] | Hin]; [|now apply Hrest].
    exists req, rep. split; [now left|]. split; [apply in_or_app; right; now left|]. auto.
  - intros Hin. destruct (IH replies t x Hin) as (req0 & rep0 & H1 & H2).
    exists req0, rep0. split; [now right | exact H2].
Qed.

Lemma extract_sound (packets : list (packet time)) :
  (forall e, In e (fst (extract packets)) -> exists pkt, In pkt packets /\ is_echo 8 pkt e) /\
  (forall e, In e (snd (extract packets)) -> exists pkt, In pkt packets /\ is_echo 0 pkt e).
Proof.
  induction packets as [|pkt packets [IH1 IH2]]; cbn [extract]; [split; intros e []|].
  destruct (extract packets) as [requests replies]. cbn [fst snd] in *.
  assert (H1 : forall e, In e requests -> exists p, In p (pkt :: packets) /\ is_echo 8 p e).
  { intros e He. destruct (IH1 e He) as (p & Hp & Hecho). exists p. split; [now right | auto]. }
  assert (H2 : forall e, In e replies -> exists p, In p (pkt :: packets) /\ is_echo 0 p e).
  { intros e He. destruct (IH2 e He) as (p & Hp & Hecho). exists p. split; [now right | auto]. }
  destruct (has_ip pkt) eqn:Hip; [|split; assumption].
  destruct (icmp pkt) as [hdr|] eqn:Hicmp; [|split; assumption].
  destruct (Z.eqb_spec (icmp_type hdr) 8) as [H8|H8];
    [|destruct (Z.eqb_spec (icmp_type hdr) 0) as [H0|H0]]; cbn [fst snd];
    split; try assumption.
  - intros e [<- | He]; [|now apply H1].
    exists pkt. split; [now left|]. split; [assumption|]. exists hdr. cbn. auto.
  - intros e [<- | He]; [|now apply H2].
    exists pkt. split; [now left|]. split; [assumption|]. exists hdr. cbn. auto.
Qed.

(** X12. Every sample the script computes comes from an echo request and
    an echo reply of the capture, both with an IP and an ICMP layer, that
    bear the same id and the same sequence number: its time is the time
    of the request, its value is [(rep_time - req_time) * 1000], and the
    value passes [0 < rtt_ms < 10000]. Packets of any other ICMP type
    contribute nothing. *)
Theorem X12_samples_come_from_matching_echoes (packets : list (packet time)) (t : time)
    (x : millis) :
  In (t, x) (samples packets) ->
  exists p_req p_rep req rep,
    In p_req packets /\ In p_rep packets /\
    is_echo 8 p_req req /\ is_echo 0 p_rep rep /\
    echo_id rep = echo_id req /\ echo_seq rep = echo_seq req /\
    t = pkt_time p_req /\ x = rtt_ms (pkt_time p_rep) (pkt_time p_req) /\
    positive_ms x = true /\ below_10000 x = true.
Proof.
  unfold rtt_samples. destruct (extract_sound packets) as [Hreq Hrep].
  destruct (extract packets) as [requests replies]. cbn [fst snd] in *.
  intros Hin.
  destruct (match_rtts_sound requests replies t x Hin)
    as (req & rep & H1 & H2 & Hm & -> & -> & Hv).
  destruct (Hreq req H1) as (p_req & Hp1 & Hecho1).
  destruct (Hrep rep H2) as (p_rep & Hp2 & Hecho2).
  exists p_req, p_rep, req, rep.
  unfold same_echo in Hm. apply andb_prop in Hm as [Hid Hseq].
  apply Z.eqb_eq in Hid, Hseq.
  unfold valid_rtt in Hv. apply andb_prop in Hv as [Hpos Hlt].
  pose proof Hecho1 as (_ & h1 & _ & _ & _ & _ & Ht1).
  pose proof Hecho2 as (_ & h2 & _ & _ & _ & _ & Ht2).
  rewrite Ht1, Ht2.
  split; [exact Hp1|]. split; [exact Hp2|]. split; [exact Hecho1|]. split; [exact Hecho2|].
  repeat split; assumption.
Qed.

Lemma matched_bounds requests : forall replies,
  let rtts := fst (matched requests replies) in
  let left := snd (matched requests replies) in
  (length rtts + length left <= length replies)%nat /\
  (length rtts <= length requests)%nat /\
  sublist left replies /\
  sublist (map fst rtts) (map echo_time requests).
Proof.
  induction requests as [|req requests IH]; intros replies; cbn [match_rtts].
  - cbn. repeat split; try lia; [reflexivity | constructor].
  - destruct (find_reply req replies) as [[rep rest]|] eqn:Ef.
    + destruct (find_reply_some _ _ _ _ Ef) as (l1 & l2 & -> & -> & _ & _).
      specialize (IH (l1 ++ l2)). cbn zeta in IH.
      destruct (matched requests (l1 ++ l2)) as [rtts left]. cbn [fst snd] in *.
      destruct IH as (H1 & H2 & H3 & H4).
      rewrite length_app in *. cbn [length] in *.
      assert (Hsub : sublist left (l1 ++ rep :: l2)).
      { etransitivity; [exact H3|]. apply sublist_app; [reflexivity|].
        apply sublist_cons. reflexivity. }
      destruct (valid (rtt_ms (echo_time rep) (echo_time req)));
        cbn [length map fst]; repeat split; try lia; try assumption.
      * now apply sublist_skip.
      * now apply sublist_cons.
    + specialize (IH replies). cbn zeta in IH. destruct IH as (H1 & H2 & H3 & H4).
      cbn [length map]. repeat split; try lia; try assumption.
      now apply sublist_cons.
Qed.

(** X13. The matching loop uses a reply at most once: every sample takes
    a reply of its own out of [echo_replies], so that the samples and the
    replies left over are never more than the replies, nor the samples
    more than the requests; the replies left over are replies of the
    capture in their order, and the samples follow the order of the
    requests. *)
Theorem X13_each_reply_matched_at_most_once (requests replies : list (echo time)) :
  let rtts := fst (matched requests replies) in
  let left := snd (matched requests replies) in
  (length rtts + length left <= length replies)%nat /\
  (length rtts <= length requests)%nat /\
  sublist left replies /\
  sublist (map fst rtts) (map echo_time requests).
Proof. apply matched_bounds. Qed.

Lemma same_echo_shared (r0 req r : echo time) :
  same_echo r0 r = true -> same_echo req r = true -> same_echo r0 req = true.
Proof.
  unfold same_echo. intros H1 H2.
  apply andb_prop in H1 as [H1 H1'], H2 as [H2 H2'].
  apply Z.eqb_eq in H1, H1', H2, H2'.
  apply andb_true_intro. split; apply Z.eqb_eq; congruence.
Qed.

(** The reply of a request is still the first one that matches after the
    reply of a request with another id or sequence number is deleted. *)
Lemma find_reply_other (r0 req : echo time) replies : forall rep0 rest0 rep rest,
  same_echo r0 req = false ->
  find_reply r0 replies = Some (rep0, rest0) ->
  find_reply req replies = Some (rep, rest) ->
  exists rest', find_reply req rest0 = Some (rep, rest').
Proof.
  induction replies as [|r replies IH]; intros rep0 rest0 rep rest Hne; cbn [find_reply];
    [discriminate|].
  destruct (same_echo r0 r) eqn:E0.
  - intros [= <- <-].
    destruct (same_echo req r) eqn:E1.
    + rewrite (same_echo_shared _ _ _ E0 E1) in Hne. discriminate.
    + destruct (find_reply req replies) as [[found rest1]|]; [|discriminate].
      intros [= <- <-]. eauto.
  - destruct (find_reply r0 replies) as [[found0 rest0']|] eqn:Ef0; [|discriminate].
    intros [= <- <-]. cbn [find_reply].
    destruct (same_echo req r) eqn:E1.
    + intros [= <- <-]. eauto.
    + destruct (find_reply req replies) as [[found rest1]|] eqn:Ef; [|discriminate].
      intros [= <- <-].
      destruct (IH found0 rest0' found rest1 Hne eq_refl eq_refl) as [rest' ->]. eauto.
Qed.

Lemma matched_complete before : forall req after replies rep rest,
  Forall (fun r => same_echo r req = false) before ->
  find_reply req replies = Some (rep, rest) ->
  valid (rtt_ms (echo_time rep) (echo_time req)) = true ->
  In (echo_time req, rtt_ms (echo_time rep) (echo_time req))
     (fst (matched (before ++ req :: after) replies)).
Proof.
  induction before as [|r0 before IH]; intros req after replies rep rest Hbefore Hfind Hvalid;
    cbn [app match_rtts].
  - rewrite Hfind. destruct (matched after rest) as [rtts left]. rewrite Hvalid. now left.
  - inversion Hbefore as [|? ? Hr0 Hrest]; subst.
    destruct (find_reply r0 replies) as [[rep0 rest0]|] eqn:Ef0.
    + destruct (find_reply_other _ _ _ _ _ _ _ Hr0 Ef0 Hfind) as [rest' Hfind'].
      pose proof (IH req after rest0 rep rest' Hrest Hfind' Hvalid) as Hin.
      destruct (matched (before ++ req :: after) rest0) as [rtts left]. cbn [fst] in *.
      destruct (valid (rtt_ms (echo_time rep0) (echo_time r0))); [now right | assumption].
    + now apply (IH req after replies rep rest).
Qed.

(** X14. A request is not robbed of its reply by requests that bear
    another id or sequence number: when no earlier request has the id and
    the sequence number of the request, the first reply that has them is
    the one the loop matches with it, and if the round-trip time passes
    [0 < rtt_ms < 10000] the sample of the request is among the results. *)
Theorem X14_request_with_reply_yields_sample (before after : list (echo time))
    (req : echo time) (replies : list (echo time)) (rep : echo time)
    (rest : list (echo time)) :
  Forall (fun r => same_echo r req = false) before ->
  find_reply req replies = Some (rep, rest) ->
  positive_ms (rtt_ms (echo_time rep) (echo_time req)) = true ->
  below_10000 (rtt_ms (echo_time rep) (echo_time req)) = true ->
  In (echo_time req, rtt_ms (echo_time rep) (echo_time req))
     (fst (matched (before ++ req :: after) replies)).
Proof.
  intros Hbefore Hfind Hpos Hlt. apply (matched_complete before req after replies rep rest);
    try assumption.
  unfold valid_rtt. now rewrite Hpos, Hlt.
Qed.

End IcmpProperties.

(** ** The script on a small capture *)

Lemma X12_samples_witness :
  In (104, 2000) (rtt_samples Z Z seconds_to_ms (Z.ltb 0) (fun x => x <? 10000) capture) /\
  exists p_req p_rep,
    In p_req capture /\ In p_rep capture /\
    pkt_time p_req = 104 /\ seconds_to_ms (pkt_time p_rep) (pkt_time p_req) = 2000.
Proof.
  assert (H : In (104, 2000)
                (rtt_samples Z Z seconds_to_ms (Z.ltb 0) (fun x => x <? 10000) capture))
    by (vm_compute; auto).
  split; [exact H|].
  destruct (X12_samples_come_from_matching_echoes seconds_to_ms (Z.ltb 0)
              (fun x => x <? 10000) capture 104 2000 H)
    as (p_req & p_rep & req & rep & H1 & H2 & _ & _ & _ & _ & H3 & H4 & _).
  exists p_req, p_rep. auto.
Defined.

Lemma X14_request_witness :
  In (104, 2000)
     (fst (match_rtts Z Z seconds_to_ms (Z.ltb 0) (fun x => x <? 10000)
             ([{| echo_id := 7; echo_seq := 1; echo_time := 100 |}] ++
              {| echo_id := 7; echo_seq := 2; echo_time := 104 |} :: [])
             [{| echo_id := 7; echo_seq := 1; echo_time := 101 |};
              {| echo_id := 7; echo_seq := 2; echo_time := 106 |}])).
Proof.
  apply (X14_request_with_reply_yields_sample seconds_to_ms (Z.ltb 0) (fun x => x <? 10000)
           [{| echo_id := 7; echo_seq := 1; echo_time := 100 |}] []
           {| echo_id := 7; echo_seq := 2; echo_time := 104 |}
           [{| echo_id := 7; echo_seq := 1; echo_time := 101 |};
            {| echo_id := 7; echo_seq := 2; echo_time := 106 |}]
           {| echo_id := 7; echo_seq := 2; echo_time := 106 |}
           [{| echo_id := 7; echo_seq := 1; echo_time := 101 |}]).
  - repeat constructor.
  - reflexivity.
  - reflexivity.
  - reflexivity.
Defined.

(** ** When a loaded trace is empty *)

Lemma dict_setitem_not_nil d k v : dict_setitem d k v <> [].
Proof.
  destruct d as [|[k1 v1] d]; cbn [dict_setitem]; [discriminate|].
  destruct (PyFloat.eq k1 k); discriminate.
Qed.

Lemma load_rows_not_nil py_float rows : forall data T,
  data <> [] -> load_rows py_float data rows = Ok T -> T <> [].
Proof.
  induction rows as [|row rows IH]; intros data T Hdata; cbn [load_rows].
  - now intros [= <-].
  - destruct (load_row py_float data row) as [data'|e] eqn:E; cbn [bind]; [|discriminate].
    destruct (load_row_sample _ _ _ _ E) as (k & v & _ & ->).
    apply IH, dict_setitem_not_nil.
Qed.

(** X15. A trace that loads is empty only when the file has no data row:
    as soon as there is a row after the header, the loaded trace has a
    sample, and the selector returns a value or raises on a value that is
    not a number, but never for want of a sample. *)
Theorem X15_loaded_trace_empty_only_without_rows (py_float : string -> option float)
    (header : list string) (rows : list (list string)) (T : trace) :
  load_latency_trace py_float (header :: rows) = Ok T ->
  (T = [] <-> rows = []) /\
  (rows <> [] -> forall e, exists k,
     In k (keys T) /\ closest_latency T e = PyFloat.int (dict_getitem T k / 2)%float).
Proof.
  cbn [load_latency_trace]. intros Hload.
  assert (Hiff : T = [] <-> rows = []).
  { destruct rows as [|row rows]; cbn [load_rows] in Hload.
    - injection Hload as <-. split; reflexivity.
    - split; [|discriminate]. intros ->.
      destruct (load_row py_float [] row) as [data'|e] eqn:E; cbn [bind] in Hload;
        [|discriminate].
      destruct (load_row_sample _ _ _ _ E) as (k & v & _ & ->).
      exfalso. now apply (load_rows_not_nil py_float rows _ [] (dict_setitem_not_nil [] k v)). }
  split; [exact Hiff|].
  intros Hrows e.
  assert (Hk : keys T <> []).
  { destruct T; [exfalso; apply Hrows; now apply Hiff | discriminate]. }
  destruct (py_min_spec (distance e) (keys T) Hk) as (pre & k & post & Hkeys & Hmin & _).
  exists k. split.
  - rewrite Hkeys. apply in_or_app. right. now left.
  - unfold closest_latency. now rewrite Hmin.
Qed.

Lemma X15_loaded_trace_witness :
  load_latency_trace decimal_float [["t"; "relative"; "rtt"]; ["a"; "0.0"; "100.0"]]
  = Ok [(0.0, 100.0)]%float /\
  ([(0.0, 100.0)]%float = [] <-> [["a"; "0.0"; "100.0"]] = []).
Proof.
  assert (H : load_latency_trace decimal_float
                [["t"; "relative"; "rtt"]; ["a"; "0.0"; "100.0"]]
              = Ok [(0.0, 100.0)]%float) by (vm_compute; reflexivity).
  split; [exact H|].
  apply (X15_loaded_trace_empty_only_without_rows decimal_float _ _ _ H).
Defined.
